(** * FindRival API: a shallow embedding of [main.py] and [schemas.py]

    The request handlers of [main.py] are translated into functions over an
    explicit document store.  A handler takes the store, returns the store it
    leaves behind and either a response or the exception that escapes it.
    The external collaborators (the distance function of the store's geo
    index, the push-messaging client, failures of best-effort calls) are
    gathered in one record that every handler receives. *)

From Stdlib Require Import ZArith NArith QArith List String Ascii Bool Lia.
From Stdlib Require Import Floats.PrimFloat Floats.SpecFloat Floats.FloatOps
  Floats.FloatAxioms.
Import ListNotations.

Local Close Scope Q_scope.
Local Open Scope string_scope.

(** ** Python values and exceptions *)

Module Py.

(** The exceptions that occur in the handlers.  [HTTPException] is the only
    one the web framework turns into a response of the given status; any
    other exception that leaves a handler is a server fault. *)
Inductive exn : Type :=
| HTTPException (status_code : Z) (detail : string)
| InvalidId (oid : string)            (* bson.errors.InvalidId *)
| OperationFailure (msg : string)     (* pymongo.errors.OperationFailure *)
| ValueError (msg : string)
| OverflowError (msg : string)
| AttributeError (msg : string)
| MessagingError (msg : string).      (* anything firebase_admin raises *)

Inductive result (A : Type) : Type :=
| Ok (a : A)
| Raise (e : exn).
Arguments Ok {A} a.
Arguments Raise {A} e.

(** [str(e)] as used by the f-string of the geo-query handler. *)
Definition str_exn (e : exn) : string :=
  match e with
  | HTTPException _ d => d
  | InvalidId o => o
  | OperationFailure m | ValueError m | OverflowError m
  | AttributeError m | MessagingError m => m
  end.

Definition bind {A B : Type} (r : result A) (k : A -> result B) : result B :=
  match r with
  | Ok a => k a
  | Raise e => Raise e
  end.

(** [try: r except Exception as e: handler e]. *)
Definition try_except {A : Type} (r : result A) (handler : exn -> result A)
    : result A :=
  match r with
  | Ok a => Ok a
  | Raise e => handler e
  end.

(** The status of the response the framework sends for an outcome. *)
Definition http_status {A : Type} (r : result A) : Z :=
  match r with
  | Ok _ => 200
  | Raise (HTTPException c _) => c
  | Raise _ => 500
  end.

(** Truth value of a string: only the empty string is false. *)
Definition truthy (s : string) : bool := negb (String.eqb s "").

(** [int(x)] on a float: truncation towards zero; [nan] raises
    [ValueError], an infinity raises [OverflowError]. *)
Definition int (x : float) : result Z :=
  match Prim2SF x with
  | S754_zero _ => Ok 0%Z
  | S754_nan => Raise (ValueError "cannot convert float NaN to integer")
  | S754_infinity _ =>
      Raise (OverflowError "cannot convert float infinity to integer")
  | S754_finite sign m e =>
      let magnitude :=
        match e with
        | Z0 => Zpos m
        | Zpos p => Z.shiftl (Zpos m) (Zpos p)
        | Zneg p => Z.shiftr (Zpos m) (Zpos p)
        end in
      Ok (if sign then Z.opp magnitude else magnitude)
  end.

(** A JSON-like value, the shape of [model_dump()]. *)
#[local] Unset Elimination Schemes.
Inductive value : Type :=
| VNone
| VStr (s : string)
| VFloat (x : float)
| VList (l : list value)
| VDict (d : list (string * value)).
#[local] Set Elimination Schemes.

(** [d.get(k)] on a dictionary kept as an association list. *)
Fixpoint get (k : string) (d : list (string * value)) : option value :=
  match d with
  | [] => None
  | (k', v) :: rest => if String.eqb k k' then Some v else get k rest
  end.

Definition keys (d : list (string * value)) : list string := map fst d.

Definition opt_str (o : option string) : value :=
  match o with
  | None => VNone
  | Some s => VStr s
  end.

(** [s.lower()] on the ASCII letters; every other character is kept.  No
    character outside A-Z lowers to a letter of "bearer" or to a space, so
    the prefix test of [verify_firebase_token] is decided by these. *)
Definition lower_char (c : ascii) : ascii :=
  let n := nat_of_ascii c in
  if ((65 <=? n) && (n <=? 90))%nat then ascii_of_nat (n + 32) else c.

Fixpoint lower (s : string) : string :=
  match s with
  | EmptyString => EmptyString
  | String c rest => String (lower_char c) (lower rest)
  end.

(** [s.startswith(p)]. *)
Definition startswith (s p : string) : bool := String.prefix p s.

(** [s.partition(sep)] for a one-character separator: the text before and
    after its first occurrence, [None] when it does not occur. *)
Fixpoint partition (sep : ascii) (s : string) : option (string * string) :=
  match s with
  | EmptyString => None
  | String c rest =>
      if Ascii.eqb c sep then Some (EmptyString, rest)
      else
        match partition sep rest with
        | Some (before, after) => Some (String c before, after)
        | None => None
        end
  end.

(** [s.split(sep, 1)]: at most one split, at the first separator. *)
Definition split1 (sep : ascii) (s : string) : list string :=
  match partition sep s with
  | Some (before, after) => [before; after]
  | None => [s]
  end.

End Py.
Import Py.

Notation "x <- e ;; k" := (bind e (fun x => k))
  (at level 61, e at next level, right associativity).

(** ** bson.ObjectId *)

Module Bson.
Local Open Scope N_scope.

(** The identifiers the store assigns have twelve bytes; such an identifier
    is kept as the number its bytes spell. *)
Definition oid : Type := N.

(** The value of [ObjectId(s)]: the bytes read from the string.  Twelve
    bytes are an identifier.  [bytes.fromhex] skips white space, so a string
    of 24 characters can also give fewer bytes. *)
Inductive ObjectId_t : Type :=
| Twelve (o : oid)
| Fewer (bytes : list N).

Definition hex_digit (c : ascii) : option N :=
  let n := N_of_ascii c in
  if (48 <=? n) && (n <=? 57) then Some (n - 48)
  else if (97 <=? n) && (n <=? 102) then Some (n - 87)
  else if (65 <=? n) && (n <=? 70) then Some (n - 55)
  else None.

(** ASCII white space: the space and the characters 9 to 13. *)
Definition is_space (c : ascii) : bool :=
  let n := N_of_ascii c in
  (n =? 32) || ((9 <=? n) && (n <=? 13)).

(** [bytes.fromhex(s)]: two hexadecimal digits for each byte; white space
    is skipped before a byte and at the end, not between the two digits of
    a byte.  [None] stands for [ValueError]. *)
Fixpoint fromhex (s : string) : option (list N) :=
  match s with
  | EmptyString => Some []
  | String c rest =>
      if is_space c then fromhex rest
      else
        match hex_digit c, rest with
        | Some top, String c' rest' =>
            match hex_digit c', fromhex rest' with
            | Some bot, Some bytes => Some (16 * top + bot :: bytes)
            | _, _ => None
            end
        | _, _ => None
        end
  end.

(** The number that bytes spell, the first byte the most significant. *)
Definition number (bytes : list N) : N :=
  fold_left (fun acc b => 256 * acc + b) bytes 0.

(** [ObjectId(s)] for a string [s]: a string of 24 characters that
    [bytes.fromhex] reads is converted to the bytes read, every other string
    raises [InvalidId]; [None] stands for the raise. *)
Definition ObjectId (s : string) : option ObjectId_t :=
  if (String.length s =? 24)%nat then
    match fromhex s with
    | Some bytes =>
        Some (if (List.length bytes =? 12)%nat then Twelve (number bytes)
              else Fewer bytes)
    | None => None
    end
  else None.

Definition digit_hex (d : N) : ascii :=
  if d <? 10 then ascii_of_N (48 + d) else ascii_of_N (87 + d).

Fixpoint to_hex (k : nat) (n : N) (acc : string) : string :=
  match k with
  | O => acc
  | S k' => to_hex k' (n / 16) (String (digit_hex (n mod 16)) acc)
  end.

(** [str(oid)]: 24 lower-case hexadecimal digits. *)
Definition str (o : oid) : string := to_hex 24 o "".

End Bson.

(** ** schemas.py *)

Module GeoPoint.
Record t : Type := mk {
  type : string;                 (* Literal["Point"], default "Point" *)
  coordinates : list float       (* [lng, lat] *)
}.
Definition model_dump (p : t) : list (string * value) :=
  [("type", VStr (type p));
   ("coordinates", VList (map VFloat (coordinates p)))].
End GeoPoint.

Inductive Day : Type := mon | tue | wed | thu | fri | sat | sun.

Definition Day_str (d : Day) : string :=
  match d with
  | mon => "mon" | tue => "tue" | wed => "wed" | thu => "thu"
  | fri => "fri" | sat => "sat" | sun => "sun"
  end.

Inductive Timeslot : Type := morning | afternoon | evening | any.

Definition Timeslot_str (t : Timeslot) : string :=
  match t with
  | morning => "morning" | afternoon => "afternoon"
  | evening => "evening" | any => "any"
  end.

Module Availability.
Record t : Type := mk {
  days : list Day;
  timeslot : option Timeslot
}.
(** [Availability()]: the defaults of the schema. *)
Definition default : t := mk [] (Some any).
Definition model_dump (a : t) : list (string * value) :=
  [("days", VList (map (fun d => VStr (Day_str d)) (days a)));
   ("timeslot", opt_str (option_map Timeslot_str (timeslot a)))].
End Availability.

Inductive Sport : Type :=
| soccer | basketball | tennis | cricket | volleyball | badminton
| rugby | hockey | other.

Definition Sport_str (s : Sport) : string :=
  match s with
  | soccer => "soccer" | basketball => "basketball" | tennis => "tennis"
  | cricket => "cricket" | volleyball => "volleyball"
  | badminton => "badminton" | rugby => "rugby" | hockey => "hockey"
  | other => "other"
  end.

Module Team.
Record t : Type := mk {
  owner_uid : string;
  name : string;
  sport : Sport;
  location : GeoPoint.t;
  address : option string;
  players : list string;
  availability : Availability.t;
  device_tokens : list string
}.
Definition model_dump (x : t) : list (string * value) :=
  [("owner_uid", VStr (owner_uid x));
   ("name", VStr (name x));
   ("sport", VStr (Sport_str (sport x)));
   ("location", VDict (GeoPoint.model_dump (location x)));
   ("address", opt_str (address x));
   ("players", VList (map VStr (players x)));
   ("availability", VDict (Availability.model_dump (availability x)));
   ("device_tokens", VList (map VStr (device_tokens x)))].
End Team.

Inductive Status : Type := pending | accepted | rejected | confirmed.

Definition Status_str (s : Status) : string :=
  match s with
  | pending => "pending" | accepted => "accepted"
  | rejected => "rejected" | confirmed => "confirmed"
  end.

Module MatchRequest.
Record t : Type := mk {
  from_team_id : string;
  to_team_id : string;
  status : Status;
  proposed_time : option string;
  notes : option string
}.
(** The model as the schema builds it from a request body: a field the
    body leaves out takes its default, [status] defaults to "pending". *)
Definition parse (from_id to_id : string) (st : option Status)
    (time note : option string) : t :=
  mk from_id to_id
     (match st with Some s => s | None => pending end) time note.
End MatchRequest.

Module TeamPublic.
Record t : Type := mk {
  id : string;
  name : string;
  sport : string;
  location : list (string * value);     (* Dict[str, Any] *)
  address : option string;
  players : list string;
  availability : Availability.t
}.
Definition model_dump (x : t) : list (string * value) :=
  [("id", VStr (id x));
   ("name", VStr (name x));
   ("sport", VStr (sport x));
   ("location", VDict (location x));
   ("address", opt_str (address x));
   ("players", VList (map VStr (players x)));
   ("availability", VDict (Availability.model_dump (availability x)))].
End TeamPublic.

Module MatchRequestPublic.
Record t : Type := mk {
  id : string;
  from_team_id : string;
  to_team_id : string;
  status : string;
  proposed_time : option string;
  notes : option string
}.
End MatchRequestPublic.

(** ** The document store and the external collaborators *)

Module Database.
Import Bson.

(** A stored team: the dumped [Team] model under its [_id]. *)
Record TeamDoc : Type := mkTeamDoc {
  team_oid : oid;
  team_body : Team.t
}.

(** A stored match request.  [status] is a plain string in the store. *)
Record RequestDoc : Type := mkRequestDoc {
  _id : oid;
  from_team_id : string;
  to_team_id : string;
  status : string;
  proposed_time : option string;
  notes : option string
}.

(** The collections [db.team] and [db.matchrequest] in insertion order,
    whether [db.team] has its 2dsphere index, and the next identifier the
    store hands out. *)
Record Store : Type := mkStore {
  team : list TeamDoc;
  team_geo_index : bool;
  matchrequest : list RequestDoc;
  next_oid : oid
}.

Definition empty : Store := mkStore [] false [] 0%N.

(** The first document of a collection with the identifier [o]. *)
Definition find_one {D : Type} (key : D -> oid) (docs : list D) (o : oid)
    : option D :=
  List.find (fun d => N.eqb (key d) o) docs.

(** [collection.find_one({"_id": v})] for a converted value [v].  Every
    stored identifier has twelve bytes, so a value of fewer bytes is the
    identifier of no document. *)
Definition find_one_by_id {D : Type} (key : D -> oid) (docs : list D)
    (v : ObjectId_t) : option D :=
  match v with
  | Twelve o => find_one key docs o
  | Fewer _ => None
  end.

Definition set_status (d : RequestDoc) (st : string) : RequestDoc :=
  mkRequestDoc (_id d) (from_team_id d) (to_team_id d) st
               (proposed_time d) (notes d).

(** The first document with the identifier [o] gets the status; the second
    component is the number of documents matched. *)
Fixpoint update_one (docs : list RequestDoc) (o : oid) (st : string)
    : list RequestDoc * nat :=
  match docs with
  | [] => ([], 0%nat)
  | d :: rest =>
      if N.eqb (_id d) o then (set_status d st :: rest, 1%nat)
      else let (rest', n) := update_one rest o st in (d :: rest', n)
  end.

(** [db.matchrequest.update_one({"_id": v}, {"$set": {"status": st}})] for
    a converted value [v]; the second component is [matched_count].  A
    value of fewer than twelve bytes matches no document. *)
Definition update_one_by_id (docs : list RequestDoc) (v : ObjectId_t)
    (st : string) : list RequestDoc * nat :=
  match v with
  | Twelve o => update_one docs o st
  | Fewer _ => (docs, 0%nat)
  end.

(** Filters on [db.matchrequest], as far as [main.py] builds them. *)
#[local] Unset Elimination Schemes.
Inductive RequestFilter : Type :=
| Empty                                   (* {} *)
| Eq_from_team_id (v : string)            (* {"from_team_id": v} *)
| Eq_to_team_id (v : string)              (* {"to_team_id": v} *)
| Or (clauses : list RequestFilter).      (* {"$or": [...]} *)
#[local] Set Elimination Schemes.

Fixpoint request_matches (f : RequestFilter) (d : RequestDoc) : bool :=
  match f with
  | Empty => true
  | Eq_from_team_id v => String.eqb (from_team_id d) v
  | Eq_to_team_id v => String.eqb (to_team_id d) v
  | Or clauses => existsb (fun c => request_matches c d) clauses
  end.

(** The [$near] operator of a filter on [db.team]. *)
Record Near : Type := mkNear {
  geometry : GeoPoint.t;          (* "$geometry" *)
  maxDistance : Z                 (* "$maxDistance", in meters *)
}.

(** Filters on [db.team]: each key of the filter dictionary is a field. *)
Record TeamFilter : Type := mkTeamFilter {
  location_near : option Near;             (* "location": {"$near": ...} *)
  sport_eq : option string;                (* "sport" *)
  availability_timeslot_eq : option string (* "availability.timeslot" *)
}.

(** A cursor is a query that has not run yet: the filter and the limit
    ([0] is no limit).  [find] and [limit] only build it; the query is sent
    to the store when the cursor is iterated. *)
Record Cursor (F : Type) : Type := mkCursor {
  spec : F;
  cursor_limit : nat
}.
Arguments mkCursor {F} spec cursor_limit.
Arguments spec {F} c.
Arguments cursor_limit {F} c.

Definition find {F : Type} (filt : F) : result (Cursor F) :=
  Ok (mkCursor filt 0).

Definition limit {F : Type} (n : nat) (c : Cursor F) : result (Cursor F) :=
  Ok (mkCursor (spec c) n).

Definition apply_limit {D : Type} (n : nat) (docs : list D) : list D :=
  match n with
  | O => docs
  | _ => firstn n docs
  end.

(** Iterating a cursor on [db.matchrequest]. *)
Definition iter_requests (s : Store) (c : Cursor RequestFilter)
    : result (list RequestDoc) :=
  Ok (apply_limit (cursor_limit c)
        (filter (request_matches (spec c)) (matchrequest s))).

(** The documents of a list that come nearest first under a distance: a
    stable insertion sort on the distance. *)
Fixpoint insert_by {D : Type} (key : D -> Q) (d : D) (l : list D) : list D :=
  match l with
  | [] => [d]
  | x :: rest =>
      if Qle_bool (key d) (key x) then d :: l
      else x :: insert_by key d rest
  end.

Definition nearest_first {D : Type} (key : D -> Q) (l : list D) : list D :=
  fold_right (insert_by key) [] l.

(** What the handlers do not control.
    - [geo_distance]: the distance in meters, by the store's own geometry,
      from the point of a [$near] query to a stored location;
    - [create_index_error]: the exception of [db.team.create_index], if it
      raises;
    - [send_multicast]: the exception of [messaging.send_multicast] on a
      message, if it raises;
    - [find_team_at_dispatch]: [db.team.find_one] as the notification step
      of a match request observes it.  Other requests run between the
      insert and this lookup and the lookup may itself fail, so it is not
      tied to the store the handler was called on. *)
Record MulticastMessage : Type := mkMulticastMessage {
  tokens : list string;
  notification : string * string;          (* title, body *)
  data : list (string * string)
}.

Record Collaborators : Type := mkCollaborators {
  geo_distance : GeoPoint.t -> GeoPoint.t -> Q;
  create_index_error : option exn;
  send_multicast : MulticastMessage -> option exn;
  find_team_at_dispatch : Store -> ObjectId_t -> result (option TeamDoc)
}.

(** A run in which nothing interferes with the notification step. *)
Definition undisturbed (c : Collaborators) : Prop :=
  forall s v,
    find_team_at_dispatch c s v = Ok (find_one_by_id team_oid (team s) v).

(** A GeoJSON point is well formed when it has a longitude in [-180, 180]
    and a latitude in [-90, 90]. *)
Definition valid_point (p : GeoPoint.t) : bool :=
  match GeoPoint.coordinates p with
  | [lng; lat] =>
      (PrimFloat.leb (-180) lng && PrimFloat.leb lng 180 &&
       PrimFloat.leb (-90) lat && PrimFloat.leb lat 90)%bool
  | _ => false
  end.

(** The failure of a [$near] query when the store runs it: a malformed
    operator, or no geo index on the collection. *)
Definition near_error (s : Store) (n : Near) : option exn :=
  if negb (valid_point (geometry n)) then
    Some (OperationFailure "invalid $near point: coordinates out of bounds")
  else if (maxDistance n <? 0)%Z then
    Some (OperationFailure "$maxDistance must be non-negative")
  else if negb (team_geo_index s) then
    Some (OperationFailure "unable to find index for $geoNear query")
  else None.

Definition team_matches (c : Collaborators) (f : TeamFilter) (d : TeamDoc)
    : bool :=
  (match sport_eq f with
   | None => true
   | Some sp => String.eqb (Sport_str (Team.sport (team_body d))) sp
   end)
  &&
  (match availability_timeslot_eq f with
   | None => true
   | Some ts =>
       match Availability.timeslot (Team.availability (team_body d)) with
       | Some t => String.eqb (Timeslot_str t) ts
       | None => false
       end
   end)
  &&
  (match location_near f with
   | None => true
   | Some n =>
       Qle_bool (geo_distance c (geometry n) (Team.location (team_body d)))
                (inject_Z (maxDistance n))
   end).

(** Iterating a cursor on [db.team]: the query runs now, and fails now if
    it fails.  A [$near] query returns its matches nearest first. *)
Definition iter_teams (c : Collaborators) (s : Store) (cur : Cursor TeamFilter)
    : result (list TeamDoc) :=
  let matching := filter (team_matches c (spec cur)) (team s) in
  match location_near (spec cur) with
  | None => Ok (apply_limit (cursor_limit cur) matching)
  | Some n =>
      match near_error s n with
      | Some e => Raise e
      | None =>
          Ok (apply_limit (cursor_limit cur)
                (nearest_first
                   (fun d => geo_distance c (geometry n)
                               (Team.location (team_body d)))
                   matching))
      end
  end.

(** [db.team.create_index([("location", "2dsphere")])]. *)
Definition create_index (c : Collaborators) (s : Store) : Store * result unit :=
  match create_index_error c with
  | Some e => (s, Raise e)
  | None => (mkStore (team s) true (matchrequest s) (next_oid s), Ok tt)
  end.

(** Modelled from the spec: [create_document] of [database.py], which is
    not among the sources.  It inserts the dumped model into the named
    collection and returns the identifier the store assigned, as a string.
    The store assigns the identifiers in sequence. *)
Definition create_document_team (s : Store) (x : Team.t) : Store * string :=
  let o := next_oid s in
  (mkStore (team s ++ [mkTeamDoc o x]) (team_geo_index s) (matchrequest s)
           (o + 1)%N,
   Bson.str o).

(** Modelled from the spec: [create_document] of [database.py] on the
    collection of match requests; see [create_document_team]. *)
Definition create_document_matchrequest (s : Store) (x : MatchRequest.t)
    : Store * string :=
  let o := next_oid s in
  (mkStore (team s) (team_geo_index s)
           (matchrequest s ++
              [mkRequestDoc o (MatchRequest.from_team_id x)
                 (MatchRequest.to_team_id x)
                 (Status_str (MatchRequest.status x))
                 (MatchRequest.proposed_time x) (MatchRequest.notes x)])
           (o + 1)%N,
   Bson.str o).

(** Modelled from the spec: [get_documents] of [database.py], which is not
    among the sources.  It returns the documents of the named collection
    that match the filter, as a list and without a limit: the cursor of
    [find] is iterated to its end. *)
Definition get_documents_team (c : Collaborators) (s : Store)
    (filt : TeamFilter) : result (list TeamDoc) :=
  cur <- find filt ;;
  iter_teams c s cur.

End Database.

(** ** main.py *)

Module Main.
Import Bson Database.

(** The [TeamPublic(...)] built from a stored team. *)
Definition team_public (t : TeamDoc) : TeamPublic.t :=
  let b := team_body t in
  TeamPublic.mk (Bson.str (team_oid t)) (Team.name b)
    (Sport_str (Team.sport b)) (GeoPoint.model_dump (Team.location b))
    (Team.address b) (Team.players b) (Team.availability b).

(** POST /teams *)
Definition create_team (c : Collaborators) (s : Store) (team : Team.t)
    : Store * result TeamPublic.t :=
  (* try: create_index ... except Exception: pass *)
  let s1 := fst (create_index c s) in
  let (s2, inserted_id) := create_document_team s1 team in
  (s2,
   Ok (TeamPublic.mk inserted_id (Team.name team)
         (Sport_str (Team.sport team))
         (GeoPoint.model_dump (Team.location team))
         (Team.address team) (Team.players team) (Team.availability team))).

(** The filter [nearby_teams] builds before it queries the store. *)
Definition nearby_filter (lng lat max_km : float)
    (sport timeslot : option string) : result TeamFilter :=
  radius <- Py.int (max_km * 1000)%float ;;
  let geo_filter :=
    mkTeamFilter (Some (mkNear (GeoPoint.mk "Point" [lng; lat]) radius))
                 None None in
  let filt := geo_filter in
  let filt :=
    match sport with
    | Some sp =>
        if truthy sp
        then mkTeamFilter (location_near filt) (Some sp)
                          (availability_timeslot_eq filt)
        else filt
    | None => filt
    end in
  let filt :=
    match timeslot with
    | Some ts =>
        if truthy ts
        then mkTeamFilter (location_near filt) (sport_eq filt) (Some ts)
        else filt
    | None => filt
    end in
  Ok filt.

(** GET /teams/nearby.  The [try] block holds [find] and [limit] only; the
    loop that iterates the cursor comes after it. *)
Definition nearby_teams (c : Collaborators) (s : Store)
    (lng lat max_km : float) (sport timeslot : option string)
    : result (list TeamPublic.t) :=
  filt <- nearby_filter lng lat max_km sport timeslot ;;
  docs <- try_except (cur <- find filt ;; limit 50 cur)
            (fun e =>
               Raise (HTTPException 400
                        ("Geo query failed: " ++ str_exn e))) ;;
  ts <- iter_teams c s docs ;;
  Ok (map team_public ts).

(** The loop of [send_match_request] over the two team identifiers. *)
Fixpoint ensure_teams_exist (s : Store) (tids : list string) : result unit :=
  match tids with
  | [] => Ok tt
  | tid :: rest =>
      match ObjectId tid with
      | None => Raise (InvalidId tid)
      | Some v =>
          match find_one_by_id team_oid (team s) v with
          | None =>
              Raise (HTTPException 404 ("Team " ++ tid ++ " not found"))
          | Some _ => ensure_teams_exist s rest
          end
      end
  end.

(** The body of the [try] block of [send_match_request]. *)
Definition push_notification (c : Collaborators) (s : Store)
    (req : MatchRequest.t) (rid : string) : result unit :=
  match ObjectId (MatchRequest.to_team_id req) with
  | None => Raise (InvalidId (MatchRequest.to_team_id req))
  | Some v =>
      to_team <- find_team_at_dispatch c s v ;;
      let tokens :=
        match to_team with
        | Some t => Team.device_tokens (team_body t)
        | None => []
        end in
      match tokens with
      | [] => Ok tt
      | _ :: _ =>
          let message :=
            mkMulticastMessage tokens
              ("New Match Request", "You have a new match request")
              [("type", "match_request"); ("id", rid)] in
          match send_multicast c message with
          | Some e => Raise e
          | None => Ok tt
          end
      end
  end.

(** What a call of [send_match_request] leaves behind: the store, the
    lines it printed, and its response. *)
Record Sent : Type := mkSent {
  store_after : Store;
  printed : list string;
  response : result MatchRequestPublic.t
}.

(** POST /match-requests *)
Definition send_match_request (c : Collaborators) (s : Store)
    (req : MatchRequest.t) : Sent :=
  match ensure_teams_exist s
          [MatchRequest.from_team_id req; MatchRequest.to_team_id req] with
  | Raise e => mkSent s [] (Raise e)
  | Ok _ =>
      let (s1, rid) := create_document_matchrequest s req in
      let out :=
        match push_notification c s1 req rid with
        | Ok _ => []
        | Raise e => ["FCM send warning: " ++ str_exn e]
        end in
      mkSent s1 out
        (Ok (MatchRequestPublic.mk rid
               (MatchRequest.from_team_id req) (MatchRequest.to_team_id req)
               (Status_str (MatchRequest.status req))
               (MatchRequest.proposed_time req) (MatchRequest.notes req)))
  end.

Definition _req_public (d : RequestDoc) : MatchRequestPublic.t :=
  MatchRequestPublic.mk (Bson.str (_id d)) (from_team_id d) (to_team_id d)
    (status d) (proposed_time d) (notes d).

(** [_req_public(req)] on the result of [find_one], which may be [None]. *)
Definition _req_public_opt (d : option RequestDoc)
    : result MatchRequestPublic.t :=
  match d with
  | Some req => Ok (_req_public req)
  | None =>
      Raise (AttributeError "'NoneType' object has no attribute 'get'")
  end.

(** POST /match-requests/{request_id}/accept *)
Definition accept_request (s : Store) (request_id : string)
    : Store * result MatchRequestPublic.t :=
  match ObjectId request_id with
  | None => (s, Raise (InvalidId request_id))
  | Some v =>
      let (docs, matched_count) :=
        update_one_by_id (matchrequest s) v "accepted" in
      let s1 := mkStore (team s) (team_geo_index s) docs (next_oid s) in
      if (matched_count =? 0)%nat
      then (s1, Raise (HTTPException 404 "Request not found"))
      else (s1, _req_public_opt (find_one_by_id _id (matchrequest s1) v))
  end.

(** POST /match-requests/{request_id}/reject *)
Definition reject_request (s : Store) (request_id : string)
    : Store * result MatchRequestPublic.t :=
  match ObjectId request_id with
  | None => (s, Raise (InvalidId request_id))
  | Some v =>
      let (docs, matched_count) :=
        update_one_by_id (matchrequest s) v "rejected" in
      let s1 := mkStore (team s) (team_geo_index s) docs (next_oid s) in
      if (matched_count =? 0)%nat
      then (s1, Raise (HTTPException 404 "Request not found"))
      else (s1, _req_public_opt (find_one_by_id _id (matchrequest s1) v))
  end.

(** POST /match-requests/{request_id}/confirm *)
Definition confirm_request (s : Store) (request_id : string)
    : Store * result MatchRequestPublic.t :=
  match ObjectId request_id with
  | None => (s, Raise (InvalidId request_id))
  | Some v =>
      let (docs, matched_count) :=
        update_one_by_id (matchrequest s) v "confirmed" in
      let s1 := mkStore (team s) (team_geo_index s) docs (next_oid s) in
      if (matched_count =? 0)%nat
      then (s1, Raise (HTTPException 404 "Request not found"))
      else (s1, _req_public_opt (find_one_by_id _id (matchrequest s1) v))
  end.

(** GET /match-requests *)
Definition list_match_requests (s : Store) (team_id : option string)
    : result (list MatchRequestPublic.t) :=
  let filt := Empty in
  let filt :=
    match team_id with
    | Some tid =>
        if truthy tid
        then Or [Eq_from_team_id tid; Eq_to_team_id tid]
        else filt
    | None => filt
    end in
  cur <- find filt ;;
  cur <- limit 100 cur ;;
  docs <- iter_requests s cur ;;
  Ok (map _req_public docs).

(** GET /teams *)
Definition list_teams (c : Collaborators) (s : Store) (sport : option string)
    : result (list TeamPublic.t) :=
  let filt :=
    match sport with
    | Some sp =>
        if truthy sp then mkTeamFilter None (Some sp) None
        else mkTeamFilter None None None
    | None => mkTeamFilter None None None
    end in
  teams <- get_documents_team c s filt ;;
  Ok (map team_public teams).

(** How a call of [verify_firebase_token] ends: it returns a user id or
    [None], or the subscript [[1]] raises [IndexError]. *)
Inductive Verified : Type :=
| Returns (uid : option value)
| IndexError.

(** [verify_firebase_token].  [verify_id_token] stands for
    [auth.verify_id_token]: the decoded claims of a token, or the exception
    it raises. *)
Definition verify_firebase_token
    (verify_id_token : string -> result (list (string * value)))
    (authorization : option string) : Verified :=
  match authorization with
  | None => Returns None
  | Some header =>
      if negb (truthy header) || negb (startswith (lower header) "bearer ")
      then Returns None
      else
        match nth_error (split1 " " header) 1 with
        | None => IndexError
        | Some token =>
            match verify_id_token token with
            | Ok decoded => Returns (get "uid" decoded)
            | Raise _ => Returns None
            end
        end
  end.

End Main.

Import Bson Database Main.

(** ** Sample data *)

Module Sample.
#[local] Set Warnings "-inexact-float".

(** Collaborators that never fail and do not interfere; every distance is
    zero. *)
Definition quiet : Collaborators :=
  mkCollaborators (fun _ _ => 0%Q) None (fun _ => None)
    (fun s v => Ok (find_one_by_id team_oid (team s) v)).

(** Collaborators whose index creation and whose messaging call raise. *)
Definition failing : Collaborators :=
  mkCollaborators (fun _ _ => 0%Q)
    (Some (OperationFailure "index build failed"))
    (fun _ => Some (MessagingError "messaging unavailable"))
    (fun s v => Ok (find_one_by_id team_oid (team s) v)).

(** Collaborators under which the target team is gone when the
    notification step looks it up. *)
Definition team_gone : Collaborators :=
  mkCollaborators (fun _ _ => 0%Q) None (fun _ => None) (fun _ _ => Ok None).

(** Collaborators under which the lookup of the notification step raises. *)
Definition lookup_down : Collaborators :=
  mkCollaborators (fun _ _ => 0%Q) None (fun _ => None)
    (fun _ _ => Raise (OperationFailure "connection lost")).

Definition team_A : Team.t :=
  Team.mk "uid-a" "Team A" soccer (GeoPoint.mk "Point" [0%float; 0%float])
          None ["ann"; "bob"] Availability.default [].

Definition team_B : Team.t :=
  Team.mk "uid-b" "Team B" tennis
          (GeoPoint.mk "Point" [0%float; 0.01%float])
          (Some "Court 1") [] (Availability.mk [sat; sun] (Some evening))
          ["token-1"].

Definition id_A : string := "000000000000000000000000".
Definition id_B : string := "000000000000000000000001".
Definition id_R : string := "000000000000000000000002".
Definition id_absent : string := "00000000000000000000ffff".
Definition not_an_id : string := "not-an-object-id".
(* 24 characters of white space *)
Definition blank_id : string := "                        ".

(** The store after teams A and B were registered. *)
Definition store_AB : Store :=
  fst (create_team quiet (fst (create_team quiet Database.empty team_A))
         team_B).

(** Team A registered while the index creation failed. *)
Definition store_no_index : Store :=
  fst (create_team failing Database.empty team_A).

Definition request (st : option Status) : MatchRequest.t :=
  MatchRequest.parse id_A id_B st (Some "saturday 10:00") None.

(** The store after A sent B a request that the caller marked accepted. *)
Definition store_ABR : Store :=
  store_after (send_match_request quiet store_AB (request (Some accepted))).

(** The store after a second request from A to B. *)
Definition id_R2 : string := "000000000000000000000003".
Definition store_ABRR : Store :=
  store_after (send_match_request quiet store_ABR (request None)).

End Sample.

(** ** Properties named by the specification

    Each is a predicate on the embedding, stated in the words of the
    specification, so that it can be compared with what the code does. *)

(** A team identifier references a stored team. *)
Definition team_exists (s : Store) (tid : string) : Prop :=
  exists o d,
    ObjectId tid = Some (Twelve o) /\ find_one team_oid (team s) o = Some d.

(** A request identifier references a stored match request. *)
Definition request_exists (s : Store) (rid : string) : Prop :=
  exists o d,
    ObjectId rid = Some (Twelve o) /\
    find_one _id (matchrequest s) o = Some d.

(** "Status is forced to pending regardless of the caller-supplied value":
    the record returned and the record persisted by a successful [send]
    both have status "pending". *)
Definition forces_pending (c : Collaborators) (s : Store)
    (req : MatchRequest.t) : Prop :=
  forall r,
    response (send_match_request c s req) = Ok r ->
    MatchRequestPublic.status r = "pending" /\
    forall d,
      In d (matchrequest (store_after (send_match_request c s req))) ->
      Bson.str (_id d) = MatchRequestPublic.id r ->
      status d = "pending".

(** "Every field of the returned record equals the corresponding field of
    the input": each field of the dumped input is in the dumped response
    with the same value. *)
Definition reflects_every_field (c : Collaborators) (s : Store)
    (x : Team.t) : Prop :=
  forall r,
    snd (create_team c s x) = Ok r ->
    forall k v,
      get k (Team.model_dump x) = Some v ->
      get k (TeamPublic.model_dump r) = Some v.

(** The three transition handlers have one body and differ in the literal
    they write; this is that body. *)
Definition transition (literal : string) (s : Store) (request_id : string)
    : Store * result MatchRequestPublic.t :=
  match ObjectId request_id with
  | None => (s, Raise (InvalidId request_id))
  | Some v =>
      let (docs, matched_count) :=
        update_one_by_id (matchrequest s) v literal in
      let s1 := mkStore (team s) (team_geo_index s) docs (next_oid s) in
      if (matched_count =? 0)%nat
      then (s1, Raise (HTTPException 404 "Request not found"))
      else (s1, _req_public_opt (find_one_by_id _id (matchrequest s1) v))
  end.

(** An exception that the framework does not turn into a response of its
    own status: it reaches the client as a server fault. *)
Definition escapes_as_fault (e : exn) : Prop :=
  match e with
  | HTTPException _ _ => False
  | _ => True
  end.

(** A match request involves a team as its sender or its receiver; without
    a team every request counts. *)
Definition involves (team_id : option string) (d : RequestDoc) : bool :=
  match team_id with
  | Some x => String.eqb (from_team_id d) x || String.eqb (to_team_id d) x
  | None => true
  end.

(** The record of the response that shows a stored request: the
    identifier as a string and the other five fields as they are stored. *)
Definition shows (d : RequestDoc) (r : MatchRequestPublic.t) : Prop :=
  MatchRequestPublic.id r = Bson.str (_id d) /\
  MatchRequestPublic.from_team_id r = from_team_id d /\
  MatchRequestPublic.to_team_id r = to_team_id d /\
  MatchRequestPublic.status r = status d /\
  MatchRequestPublic.proposed_time r = proposed_time d /\
  MatchRequestPublic.notes r = notes d.

(** Strings of hexadecimal digits only. *)
Fixpoint all_hex (s : string) : bool :=
  match s with
  | EmptyString => true
  | String c rest =>
      match hex_digit c with
      | Some _ => all_hex rest
      | None => false
      end
  end.

(** The number a string of hexadecimal digits spells, after [acc]. *)
Fixpoint from_hex (acc : N) (s : string) : option N :=
  match s with
  | EmptyString => Some acc
  | String c rest =>
      match hex_digit c with
      | Some d => from_hex (16 * acc + d)%N rest
      | None => None
      end
  end.

(** ** Runs of the service

    A step is one call of a handler that writes to the store, under any
    behaviour of the collaborators; the handlers that only read take no
    step.  A store is reachable when a run from the empty store ends in
    it. *)

Inductive step : Store -> Store -> Prop :=
| step_create_team (c : Collaborators) (s : Store) (x : Team.t) :
    step s (fst (create_team c s x))
| step_send (c : Collaborators) (s : Store) (req : MatchRequest.t) :
    step s (store_after (send_match_request c s req))
| step_accept (s : Store) (rid : string) :
    step s (fst (accept_request s rid))
| step_reject (s : Store) (rid : string) :
    step s (fst (reject_request s rid))
| step_confirm (s : Store) (rid : string) :
    step s (fst (confirm_request s rid)).

Inductive reachable : Store -> Prop :=
| reachable_empty : reachable Database.empty
| reachable_step (s s' : Store) :
    reachable s -> step s s' -> reachable s'.

(** The identifiers of a collection are pairwise different and below the
    next identifier of the store. *)
Definition ids_fresh (s : Store) : Prop :=
  NoDup (map team_oid (team s)) /\
  NoDup (map _id (matchrequest s)) /\
  Forall (fun o => (o < next_oid s)%N) (map team_oid (team s)) /\
  Forall (fun o => (o < next_oid s)%N) (map _id (matchrequest s)).

(** Every stored status is one of the four literals of the schema. *)
Definition statuses_valid (s : Store) : Prop :=
  Forall
    (fun d => exists st : Status, status d = Status_str st)
    (matchrequest s).

(** Every stored request names two stored teams. *)
Definition teams_referenced (s : Store) : Prop :=
  Forall
    (fun d => team_exists s (from_team_id d) /\ team_exists s (to_team_id d))
    (matchrequest s).

(** The three transition handlers, each with the literal it writes. *)
Definition transitions
    : list ((Store -> string -> Store * result MatchRequestPublic.t) *
            string) :=
  [(accept_request, "accepted"); (reject_request, "rejected");
   (confirm_request, "confirmed")].

(** Two stored requests that differ in their status at most. *)
Definition same_but_status (d d' : RequestDoc) : Prop :=
  _id d' = _id d /\ from_team_id d' = from_team_id d /\
  to_team_id d' = to_team_id d /\ proposed_time d' = proposed_time d /\
  notes d' = notes d.

(** A stored team has the sport a query asks for; a query without a sport,
    or with the empty string, asks for none. *)
Definition plays (sport : option string) (d : TeamDoc) : bool :=
  match sport with
  | Some sp =>
      if String.eqb sp "" then true
      else String.eqb (Sport_str (Team.sport (team_body d))) sp
  | None => true
  end.

(** A float that is NaN or an infinity. *)
Definition non_finite (x : float) : bool :=
  match Prim2SF x with
  | S754_nan | S754_infinity _ => true
  | _ => false
  end.

(** ** Lists, cursors and identifiers *)

Section Lists.
Context {D : Type}.

Lemma apply_limit_incl (n : nat) (l : list D) (x : D) :
  In x (apply_limit n l) -> In x l.
Proof.
  destruct n as [|n]; simpl; [tauto|].
  intros H. change (In x (firstn (S n) l)) in H.
  rewrite <- (firstn_skipn (S n) l). apply in_or_app. now left.
Qed.

Lemma apply_limit_length (n : nat) (l : list D) :
  n <> 0%nat -> (List.length (apply_limit n l) <= n)%nat.
Proof.
  destruct n as [|n]; [congruence|]. intros _.
  change (List.length (firstn (S n) l) <= S n)%nat. apply firstn_le_length.
Qed.

Lemma apply_limit_all (n : nat) (l : list D) :
  (List.length l <= n)%nat -> apply_limit n l = l.
Proof.
  destruct n as [|n]; [reflexivity|]. intros H.
  change (firstn (S n) l = l). now apply firstn_all2.
Qed.

Lemma insert_by_In (key : D -> Q) (d x : D) (l : list D) :
  In x (insert_by key d l) <-> x = d \/ In x l.
Proof.
  induction l as [|y l IH]; simpl.
  - intuition congruence.
  - destruct (Qle_bool (key d) (key y)); simpl.
    + intuition congruence.
    + rewrite IH. intuition congruence.
Qed.

Lemma nearest_first_In (key : D -> Q) (x : D) (l : list D) :
  In x (nearest_first key l) <-> In x l.
Proof.
  induction l as [|y l IH]; simpl; [tauto|].
  rewrite insert_by_In, IH. intuition congruence.
Qed.

End Lists.

Lemma to_hex_length (k : nat) (n : N) (acc : string) :
  String.length (to_hex k n acc) = (k + String.length acc)%nat.
Proof.
  revert n acc. induction k as [|k IH]; intros n acc; simpl; [reflexivity|].
  rewrite IH. simpl. lia.
Qed.

Lemma str_nonempty (o : oid) : Bson.str o <> "".
Proof.
  intros H. pose proof (to_hex_length 24 o "") as L.
  unfold Bson.str in H. rewrite H in L. simpl in L. lia.
Qed.

Lemma ObjectId_short (s : string) :
  String.length s <> 24%nat -> ObjectId s = None.
Proof.
  intros H. unfold ObjectId.
  destruct (Nat.eqb_spec (String.length s) 24); [contradiction|reflexivity].
Qed.

(** Building a cursor never fails: nothing is sent to the store. *)
Lemma find_limit_ok {F : Type} (filt : F) (n : nat) :
  (cur <- find filt ;; limit n cur) = Ok (mkCursor filt n).
Proof. reflexivity. Qed.

(** ** Sending a match request *)

Lemma team_exists_dec (s : Store) (tid : string) (o : oid) :
  ObjectId tid = Some (Twelve o) ->
  (team_exists s tid <-> find_one team_oid (team s) o <> None).
Proof.
  intros Ho. split.
  - intros (o' & d & Ho' & Hd). rewrite Ho in Ho'. injection Ho' as <-.
    congruence.
  - intros H. destruct (find_one team_oid (team s) o) as [d|] eqn:E;
      [|congruence].
    now exists o, d.
Qed.

Lemma team_exists_lookup (s : Store) (tid : string) (v : ObjectId_t) :
  ObjectId tid = Some v ->
  (team_exists s tid <-> find_one_by_id team_oid (team s) v <> None).
Proof.
  intros Hv. destruct v as [o|bytes].
  - exact (team_exists_dec s tid o Hv).
  - split; [|now intros []].
    intros (o & d & Ho & _). congruence.
Qed.

Lemma ensure_teams_exist_ok (s : Store) (a b : string) :
  team_exists s a -> team_exists s b ->
  ensure_teams_exist s [a; b] = Ok tt.
Proof.
  intros (oa & da & Ha & Fa) (ob & db & Hb & Fb). simpl.
  rewrite Ha. cbn [find_one_by_id]. rewrite Fa, Hb.
  cbn [find_one_by_id]. now rewrite Fb.
Qed.

(** With both teams in the store, [send_match_request] appends the request
    under the next identifier and answers with that record, whatever the
    notification step does. *)
Lemma send_match_request_ok (c : Collaborators) (s : Store)
    (req : MatchRequest.t) :
  team_exists s (MatchRequest.from_team_id req) ->
  team_exists s (MatchRequest.to_team_id req) ->
  let d :=
    mkRequestDoc (next_oid s) (MatchRequest.from_team_id req)
      (MatchRequest.to_team_id req) (Status_str (MatchRequest.status req))
      (MatchRequest.proposed_time req) (MatchRequest.notes req) in
  response (send_match_request c s req) = Ok (_req_public d) /\
  matchrequest (store_after (send_match_request c s req)) =
    (matchrequest s ++ [d])%list /\
  team (store_after (send_match_request c s req)) = team s.
Proof.
  intros Hf Ht. unfold send_match_request.
  rewrite (ensure_teams_exist_ok s _ _ Hf Ht).
  unfold create_document_matchrequest. simpl. repeat split; reflexivity.
Qed.

(** A well-formed identifier that references no team is answered with
    not-found naming it, and nothing is stored; the sender is checked
    before the receiver. *)
Lemma send_match_request_missing_team (c : Collaborators) (s : Store)
    (req : MatchRequest.t) (fo : oid) :
  ObjectId (MatchRequest.from_team_id req) = Some (Twelve fo) ->
  (~ team_exists s (MatchRequest.from_team_id req) ->
   send_match_request c s req =
     mkSent s []
       (Raise (HTTPException 404
          ("Team " ++ MatchRequest.from_team_id req ++ " not found")))) /\
  (team_exists s (MatchRequest.from_team_id req) ->
   forall t_o, ObjectId (MatchRequest.to_team_id req) = Some (Twelve t_o) ->
   ~ team_exists s (MatchRequest.to_team_id req) ->
   send_match_request c s req =
     mkSent s []
       (Raise (HTTPException 404
          ("Team " ++ MatchRequest.to_team_id req ++ " not found")))).
Proof.
  intros Hfo. split.
  - intros Hn. rewrite (team_exists_dec s _ fo Hfo) in Hn.
    unfold send_match_request. simpl. rewrite Hfo. cbn [find_one_by_id].
    destruct (find_one team_oid (team s) fo); [exfalso; apply Hn; congruence|].
    reflexivity.
  - intros (o & d & Ho & Hd) t_o Hto Hn.
    rewrite (team_exists_dec s _ t_o Hto) in Hn.
    unfold send_match_request. simpl. rewrite Ho. cbn [find_one_by_id].
    rewrite Hd, Hto. cbn [find_one_by_id].
    destruct (find_one team_oid (team s) t_o);
      [exfalso; apply Hn; congruence|].
    reflexivity.
Qed.

Lemma Sample_teams_exist :
  team_exists Sample.store_AB Sample.id_A /\
  team_exists Sample.store_AB Sample.id_B.
Proof.
  split.
  - exists 0%N. eexists. split; vm_compute; reflexivity.
  - exists 1%N. eexists. split; vm_compute; reflexivity.
Qed.

(** C1, as the specification states it, fails: a request the caller marked
    accepted is stored and returned as accepted. *)
Lemma C1_status_is_not_forced :
  ~ forces_pending Sample.quiet Sample.store_AB
      (Sample.request (Some accepted)).
Proof.
  intros H. specialize (H _ eq_refl). destruct H as [H _].
  vm_compute in H. discriminate H.
Qed.

(** C1, amended: when both teams exist, the record [send] persists and the
    record it returns carry the status of the request as the schema parsed
    it: the status the caller supplied, and "pending" when the caller
    supplied none. *)
Theorem C1_send_keeps_supplied_status (c : Collaborators) (s : Store)
    (from_id to_id : string) (st : option Status)
    (time note : option string) :
  let req := MatchRequest.parse from_id to_id st time note in
  team_exists s from_id -> team_exists s to_id ->
  exists r d,
    response (send_match_request c s req) = Ok r /\
    matchrequest (store_after (send_match_request c s req)) =
      (matchrequest s ++ [d])%list /\
    Bson.str (_id d) = MatchRequestPublic.id r /\
    MatchRequestPublic.status r = status d /\
    status d =
      match st with
      | Some supplied => Status_str supplied
      | None => "pending"
      end.
Proof.
  intros req Hf Ht.
  destruct (send_match_request_ok c s req Hf Ht) as (Hr & Hm & _).
  eexists; eexists. split; [exact Hr|]. split; [exact Hm|].
  simpl. repeat split. now destruct st.
Qed.

Lemma C1_send_keeps_supplied_status_witness :
  team_exists Sample.store_AB Sample.id_A /\
  team_exists Sample.store_AB Sample.id_B /\
  exists r d,
    response (send_match_request Sample.quiet Sample.store_AB
                (Sample.request (Some rejected))) = Ok r /\
    matchrequest
      (store_after (send_match_request Sample.quiet Sample.store_AB
                      (Sample.request (Some rejected)))) =
      (matchrequest Sample.store_AB ++ [d])%list /\
    Bson.str (_id d) = MatchRequestPublic.id r /\
    MatchRequestPublic.status r = status d /\
    status d = "rejected".
Proof.
  split; [exact (proj1 Sample_teams_exist)|].
  split; [exact (proj2 Sample_teams_exist)|].
  exact (C1_send_keeps_supplied_status Sample.quiet Sample.store_AB
           Sample.id_A Sample.id_B (Some rejected) (Some "saturday 10:00")
           None (proj1 Sample_teams_exist) (proj2 Sample_teams_exist)).
Defined.

(** C3 at a receiver identifier that is no object id: the sender exists,
    the receiver references no team, and the call ends in [InvalidId], a
    server fault, instead of not-found.  Nothing is stored. *)
Theorem C3_malformed_team_id_is_a_server_fault :
  let req := MatchRequest.parse Sample.id_A Sample.not_an_id None None None in
  let out := send_match_request Sample.quiet Sample.store_AB req in
  ~ team_exists Sample.store_AB Sample.not_an_id /\
  response out = Raise (InvalidId Sample.not_an_id) /\
  http_status (response out) = 500%Z /\
  http_status (response out) <> 404%Z /\
  store_after out = Sample.store_AB.
Proof.
  split.
  - intros (o & d & Ho & _). vm_compute in Ho. discriminate Ho.
  - vm_compute. repeat split; congruence.
Qed.

(** C7: with both teams in the store, [send] answers with the request it
    persisted whatever the collaborators do in the notification step:
    whether the lookup of the target team fails, finds no team or finds a
    team without tokens, and whether the messaging call raises. *)
Theorem C7_notification_failure_never_fails_send (c : Collaborators)
    (s : Store) (req : MatchRequest.t) :
  team_exists s (MatchRequest.from_team_id req) ->
  team_exists s (MatchRequest.to_team_id req) ->
  exists d,
    response (send_match_request c s req) = Ok (_req_public d) /\
    http_status (response (send_match_request c s req)) = 200%Z /\
    matchrequest (store_after (send_match_request c s req)) =
      (matchrequest s ++ [d])%list /\
    from_team_id d = MatchRequest.from_team_id req /\
    to_team_id d = MatchRequest.to_team_id req.
Proof.
  intros Hf Ht.
  destruct (send_match_request_ok c s req Hf Ht) as (Hr & Hm & _).
  eexists. split; [exact Hr|]. rewrite Hr. split; [reflexivity|].
  split; [exact Hm|]. split; reflexivity.
Qed.

Lemma C7_notification_failure_never_fails_send_witness :
  team_exists Sample.store_AB Sample.id_A /\
  team_exists Sample.store_AB Sample.id_B /\
  printed (send_match_request Sample.failing Sample.store_AB
             (Sample.request None)) =
    ["FCM send warning: messaging unavailable"] /\
  exists d,
    response (send_match_request Sample.failing Sample.store_AB
                (Sample.request None)) = Ok (_req_public d) /\
    http_status (response (send_match_request Sample.failing Sample.store_AB
                             (Sample.request None))) = 200%Z /\
    matchrequest
      (store_after (send_match_request Sample.failing Sample.store_AB
                      (Sample.request None))) =
      (matchrequest Sample.store_AB ++ [d])%list /\
    from_team_id d = Sample.id_A /\
    to_team_id d = Sample.id_B.
Proof.
  split; [exact (proj1 Sample_teams_exist)|].
  split; [exact (proj2 Sample_teams_exist)|].
  split; [vm_compute; reflexivity|].
  exact (C7_notification_failure_never_fails_send Sample.failing
           Sample.store_AB (Sample.request None)
           (proj1 Sample_teams_exist) (proj2 Sample_teams_exist)).
Defined.

(** The failures C7 lists, one by one: the notification step fails or has
    nothing to send, and the response is the persisted request. *)
Lemma notification_failures_are_swallowed :
  let ok (c : Collaborators) (s : Store) (req : MatchRequest.t) :=
    http_status (response (send_match_request c s req)) = 200%Z in
  (* the messaging call raises *)
  (push_notification Sample.failing Sample.store_ABR (Sample.request None)
     Sample.id_R = Raise (MessagingError "messaging unavailable") /\
   ok Sample.failing Sample.store_AB (Sample.request None)) /\
  (* the team document is absent at dispatch time *)
  (find_team_at_dispatch Sample.team_gone Sample.store_ABR (Twelve 1%N) =
     Ok None /\
   ok Sample.team_gone Sample.store_AB (Sample.request None)) /\
  (* the lookup itself raises *)
  (push_notification Sample.lookup_down Sample.store_ABR
     (Sample.request None) Sample.id_R =
     Raise (OperationFailure "connection lost") /\
   ok Sample.lookup_down Sample.store_AB (Sample.request None)) /\
  (* the target team has no device tokens: B asks A *)
  ok Sample.failing Sample.store_AB
     (MatchRequest.parse Sample.id_B Sample.id_A None None None).
Proof. vm_compute. repeat split; reflexivity. Qed.

(** C10: an identifier that is no object id (a string that has not 24
    characters, or that [bytes.fromhex] does not read) makes [ObjectId]
    raise before any lookup.  For such an identifier as the sender of a
    request, as the receiver of a request whose sender exists, or as the
    request of a transition, the handler ends in [InvalidId] whatever the
    store holds, which the framework answers with a server fault and not
    with not-found; the store is left as it was. *)
Theorem C10_invalid_id_bypasses_not_found (bad : string) :
  ObjectId bad = None ->
  (forall c s req,
     MatchRequest.from_team_id req = bad ->
     send_match_request c s req = mkSent s [] (Raise (InvalidId bad))) /\
  (forall c s req,
     team_exists s (MatchRequest.from_team_id req) ->
     MatchRequest.to_team_id req = bad ->
     send_match_request c s req = mkSent s [] (Raise (InvalidId bad))) /\
  (forall s,
     accept_request s bad = (s, Raise (InvalidId bad)) /\
     reject_request s bad = (s, Raise (InvalidId bad)) /\
     confirm_request s bad = (s, Raise (InvalidId bad))) /\
  http_status (A := MatchRequestPublic.t) (Raise (InvalidId bad)) = 500%Z /\
  http_status (A := MatchRequestPublic.t) (Raise (InvalidId bad)) <> 404%Z.
Proof.
  intros Hbad. split; [|split; [|split; [|split]]].
  - intros c s req Hfrom. unfold send_match_request. simpl.
    now rewrite Hfrom, Hbad.
  - intros c s req (o & d & Ho & Hd) Hto. unfold send_match_request. simpl.
    rewrite Ho. cbn [find_one_by_id]. rewrite Hd, Hto, Hbad. reflexivity.
  - intros s. unfold accept_request, reject_request, confirm_request.
    rewrite Hbad. repeat split.
  - reflexivity.
  - simpl. congruence.
Qed.

Lemma C10_invalid_id_bypasses_not_found_witness :
  ObjectId Sample.not_an_id = None /\
  send_match_request Sample.quiet Sample.store_AB
    (MatchRequest.parse Sample.not_an_id Sample.id_B None None None) =
    mkSent Sample.store_AB [] (Raise (InvalidId Sample.not_an_id)) /\
  send_match_request Sample.quiet Sample.store_AB
    (MatchRequest.parse Sample.id_A Sample.not_an_id None None None) =
    mkSent Sample.store_AB [] (Raise (InvalidId Sample.not_an_id)) /\
  confirm_request Sample.store_ABR Sample.not_an_id =
    (Sample.store_ABR, Raise (InvalidId Sample.not_an_id)).
Proof.
  pose proof (C10_invalid_id_bypasses_not_found Sample.not_an_id eq_refl)
    as (Hfrom & Hto & Htr & _).
  split; [reflexivity|].
  split.
  { exact (Hfrom Sample.quiet Sample.store_AB
             (MatchRequest.parse Sample.not_an_id Sample.id_B None None None)
             eq_refl). }
  split.
  - exact (Hto Sample.quiet Sample.store_AB
             (MatchRequest.parse Sample.id_A Sample.not_an_id None None None)
             (proj1 Sample_teams_exist) eq_refl).
  - exact (proj2 (proj2 (Htr Sample.store_ABR))).
Defined.

(** ** Transitions of a match request *)

Lemma transition_handlers :
  accept_request = transition "accepted" /\
  reject_request = transition "rejected" /\
  confirm_request = transition "confirmed".
Proof. repeat split. Qed.

Lemma update_one_absent (docs : list RequestDoc) (o : oid) (st : string) :
  find_one _id docs o = None -> update_one docs o st = (docs, 0%nat).
Proof.
  unfold find_one. induction docs as [|d docs IH]; simpl; [reflexivity|].
  destruct (N.eqb (_id d) o); [discriminate|].
  intros H. now rewrite (IH H).
Qed.

Lemma update_one_present (docs : list RequestDoc) (o : oid) (st : string)
    (d : RequestDoc) :
  find_one _id docs o = Some d ->
  snd (update_one docs o st) = 1%nat /\
  find_one _id (fst (update_one docs o st)) o = Some (set_status d st).
Proof.
  unfold find_one. induction docs as [|x docs IH]; simpl; [discriminate|].
  destruct (N.eqb (_id x) o) eqn:E.
  - intros [= ->]. simpl. now rewrite E.
  - intros H. destruct (IH H) as [Hn Hf].
    destruct (update_one docs o st) as [rest n]. simpl in *.
    now rewrite E.
Qed.

Lemma update_one_twice (docs : list RequestDoc) (o : oid) (st : string) :
  fst (update_one (fst (update_one docs o st)) o st) =
  fst (update_one docs o st).
Proof.
  induction docs as [|x docs IH]; simpl; [reflexivity|].
  destruct (N.eqb (_id x) o) eqn:E.
  - simpl. now rewrite E.
  - destruct (update_one docs o st) as [rest n] eqn:U. simpl in *.
    rewrite E. destruct (update_one rest o st) as [rest' n'] eqn:U'.
    simpl in *. now rewrite IH.
Qed.

(** The documents with another identifier are left as they were. *)
Lemma update_one_others (docs : list RequestDoc) (o o' : oid) (st : string) :
  o' <> o ->
  find_one _id (fst (update_one docs o st)) o' = find_one _id docs o'.
Proof.
  intros Hne. unfold find_one.
  induction docs as [|x docs IH]; simpl; [reflexivity|].
  destruct (N.eqb (_id x) o) eqn:E.
  - simpl. apply N.eqb_eq in E.
    destruct (N.eqb_spec (_id x) o'); [congruence|reflexivity].
  - destruct (update_one docs o st) as [rest n]. simpl in *.
    now rewrite IH.
Qed.

(** A transition by the outcome of [ObjectId]. *)
Lemma transition_twelve (literal : string) (s : Store) (rid : string)
    (o : oid) :
  ObjectId rid = Some (Twelve o) ->
  transition literal s rid =
    (let (docs, matched_count) := update_one (matchrequest s) o literal in
     let s1 := mkStore (team s) (team_geo_index s) docs (next_oid s) in
     if (matched_count =? 0)%nat
     then (s1, Raise (HTTPException 404 "Request not found"))
     else (s1, _req_public_opt (find_one _id (matchrequest s1) o))).
Proof. intros Ho. unfold transition. now rewrite Ho. Qed.

Lemma transition_fewer (literal : string) (s : Store) (rid : string)
    (bytes : list N) :
  ObjectId rid = Some (Fewer bytes) ->
  transition literal s rid =
    (s, Raise (HTTPException 404 "Request not found")).
Proof.
  intros Ho. unfold transition. rewrite Ho. cbn [update_one_by_id].
  now destruct s.
Qed.

Lemma transition_invalid (literal : string) (s : Store) (rid : string) :
  ObjectId rid = None ->
  transition literal s rid = (s, Raise (InvalidId rid)).
Proof. intros Ho. unfold transition. now rewrite Ho. Qed.

Lemma transition_store_twelve (literal : string) (s : Store) (rid : string)
    (o : oid) :
  ObjectId rid = Some (Twelve o) ->
  fst (transition literal s rid) =
    mkStore (team s) (team_geo_index s)
            (fst (update_one (matchrequest s) o literal)) (next_oid s).
Proof.
  intros Ho. rewrite (transition_twelve literal s rid o Ho).
  destruct (update_one (matchrequest s) o literal) as [docs n]. simpl.
  now destruct (n =? 0)%nat.
Qed.

Lemma fewer_is_no_request (s : Store) (rid : string) (bytes : list N) :
  ObjectId rid = Some (Fewer bytes) -> ~ request_exists s rid.
Proof. intros Ho (o & d & Ho' & _). congruence. Qed.

(** ** What [ObjectId] accepts

    Only strings of 24 characters are converted ([ObjectId_short]).  White
    space counts for the 24 characters and gives no byte: of 24 blanks no
    byte is read, the conversion succeeds, no document has the value as its
    identifier, and the handlers answer with not-found. *)
Lemma ObjectId_blank_id : ObjectId Sample.blank_id = Some (Fewer []).
Proof. reflexivity. Qed.

Lemma blank_id_is_not_found (c : Collaborators) (s : Store) :
  accept_request s Sample.blank_id =
    (s, Raise (HTTPException 404 "Request not found")) /\
  reject_request s Sample.blank_id =
    (s, Raise (HTTPException 404 "Request not found")) /\
  confirm_request s Sample.blank_id =
    (s, Raise (HTTPException 404 "Request not found")) /\
  response
    (send_match_request c s
       (MatchRequest.parse Sample.blank_id Sample.id_B None None None)) =
    Raise (HTTPException 404
             ("Team " ++ Sample.blank_id ++ " not found")).
Proof.
  split; [|split; [|split]].
  - exact (transition_fewer "accepted" s _ [] ObjectId_blank_id).
  - exact (transition_fewer "rejected" s _ [] ObjectId_blank_id).
  - exact (transition_fewer "confirmed" s _ [] ObjectId_blank_id).
  - reflexivity.
Qed.

(** A transition on a stored request writes the literal over whatever
    status the request has and answers with the record read back. *)
Lemma transition_found (literal : string) (s : Store) (rid : string)
    (o : oid) (d : RequestDoc) :
  ObjectId rid = Some (Twelve o) ->
  find_one _id (matchrequest s) o = Some d ->
  let s1 :=
    mkStore (team s) (team_geo_index s)
            (fst (update_one (matchrequest s) o literal)) (next_oid s) in
  transition literal s rid = (s1, Ok (_req_public (set_status d literal))) /\
  find_one _id (matchrequest s1) o = Some (set_status d literal).
Proof.
  intros Ho Hd. rewrite (transition_twelve literal s rid o Ho).
  destruct (update_one_present _ o literal d Hd) as [Hn Hf].
  destruct (update_one (matchrequest s) o literal) as [docs n].
  simpl in *. subst n. simpl. rewrite Hf. split; reflexivity.
Qed.

(** A transition on a well-formed identifier that no request has is
    answered with not-found and changes nothing. *)
Lemma transition_not_found (literal : string) (s : Store) (rid : string)
    (o : oid) :
  ObjectId rid = Some (Twelve o) ->
  find_one _id (matchrequest s) o = None ->
  transition literal s rid =
    (s, Raise (HTTPException 404 "Request not found")).
Proof.
  intros Ho Hd. rewrite (transition_twelve literal s rid o Ho).
  rewrite (update_one_absent _ o literal Hd). now destruct s.
Qed.

Lemma transition_twice (literal : string) (s : Store) (rid : string) :
  request_exists s rid ->
  exists s1 r,
    transition literal s rid = (s1, Ok r) /\
    transition literal s1 rid = (s1, Ok r) /\
    MatchRequestPublic.status r = literal.
Proof.
  intros (o & d & Ho & Hd).
  destruct (transition_found literal s rid o d Ho Hd) as [H1 Hf].
  eexists; eexists. split; [exact H1|].
  destruct (transition_found literal _ rid o _ Ho Hf) as [H2 _].
  split; [|reflexivity].
  rewrite H2. simpl. now rewrite update_one_twice.
Qed.

Lemma Sample_request_exists : request_exists Sample.store_ABR Sample.id_R.
Proof. exists 2%N. eexists. split; vm_compute; reflexivity. Qed.

(** C2 at a request identifier that is no object id: no record matches
    it, and each of the three transitions ends in [InvalidId], a server
    fault, instead of not-found. *)
Theorem C2_malformed_request_id_is_a_server_fault :
  let fault := Raise (InvalidId Sample.not_an_id) in
  ~ request_exists Sample.store_ABR Sample.not_an_id /\
  accept_request Sample.store_ABR Sample.not_an_id =
    (Sample.store_ABR, fault) /\
  reject_request Sample.store_ABR Sample.not_an_id =
    (Sample.store_ABR, fault) /\
  confirm_request Sample.store_ABR Sample.not_an_id =
    (Sample.store_ABR, fault) /\
  http_status (A := MatchRequestPublic.t) fault = 500%Z /\
  http_status (A := MatchRequestPublic.t) fault <> 404%Z.
Proof.
  split.
  - intros (o & d & Ho & _). vm_compute in Ho. discriminate Ho.
  - vm_compute. repeat split; congruence.
Qed.

(** What C2 says holds on identifiers that are object ids: each transition
    writes its literal whatever the status was, answers with the record
    read back from the store, and answers not-found when no request has
    the identifier. *)
Lemma transitions_on_object_ids (s : Store) (rid : string) (o : oid) :
  ObjectId rid = Some (Twelve o) ->
  (forall d,
     find_one _id (matchrequest s) o = Some d ->
     exists s1 s2 s3,
       accept_request s rid = (s1, Ok (_req_public (set_status d "accepted")))
       /\ find_one _id (matchrequest s1) o = Some (set_status d "accepted")
       /\ reject_request s rid =
            (s2, Ok (_req_public (set_status d "rejected")))
       /\ find_one _id (matchrequest s2) o = Some (set_status d "rejected")
       /\ confirm_request s rid =
            (s3, Ok (_req_public (set_status d "confirmed")))
       /\ find_one _id (matchrequest s3) o =
            Some (set_status d "confirmed")) /\
  (find_one _id (matchrequest s) o = None ->
   let not_found := Raise (HTTPException 404 "Request not found") in
   accept_request s rid = (s, not_found) /\
   reject_request s rid = (s, not_found) /\
   confirm_request s rid = (s, not_found)).
Proof.
  intros Ho. destruct transition_handlers as (-> & -> & ->). split.
  - intros d Hd.
    destruct (transition_found "accepted" s rid o d Ho Hd) as [A1 A2].
    destruct (transition_found "rejected" s rid o d Ho Hd) as [R1 R2].
    destruct (transition_found "confirmed" s rid o d Ho Hd) as [C1 C2].
    do 3 eexists. repeat split; eassumption.
  - intros Hd. repeat split; now apply transition_not_found with (o := o).
Qed.

(** Confirming an accepted request succeeds and yields "confirmed". *)
Lemma confirm_after_accept :
  exists s1 r1 s2 r2,
    accept_request Sample.store_ABR Sample.id_R = (s1, Ok r1) /\
    MatchRequestPublic.status r1 = "accepted" /\
    confirm_request s1 Sample.id_R = (s2, Ok r2) /\
    MatchRequestPublic.status r2 = "confirmed" /\
    confirm_request Sample.store_ABR Sample.id_absent =
      (Sample.store_ABR, Raise (HTTPException 404 "Request not found")).
Proof. do 4 eexists. vm_compute. repeat split; reflexivity. Qed.

(** C9: on the identifier of a stored request, each transition applied a
    second time leaves the store of the first application and returns the
    record of the first application. *)
Theorem C9_transitions_are_idempotent (s : Store) (rid : string) :
  request_exists s rid ->
  (exists s1 r,
     accept_request s rid = (s1, Ok r) /\
     accept_request s1 rid = (s1, Ok r) /\
     MatchRequestPublic.status r = "accepted") /\
  (exists s1 r,
     reject_request s rid = (s1, Ok r) /\
     reject_request s1 rid = (s1, Ok r) /\
     MatchRequestPublic.status r = "rejected") /\
  (exists s1 r,
     confirm_request s rid = (s1, Ok r) /\
     confirm_request s1 rid = (s1, Ok r) /\
     MatchRequestPublic.status r = "confirmed").
Proof.
  intros H. destruct transition_handlers as (-> & -> & ->).
  repeat split; now apply transition_twice.
Qed.

Lemma C9_transitions_are_idempotent_witness :
  request_exists Sample.store_ABR Sample.id_R /\
  exists s1 r,
    confirm_request Sample.store_ABR Sample.id_R = (s1, Ok r) /\
    confirm_request s1 Sample.id_R = (s1, Ok r) /\
    MatchRequestPublic.status r = "confirmed".
Proof.
  split; [exact Sample_request_exists|].
  exact (proj2 (proj2 (C9_transitions_are_idempotent Sample.store_ABR
                         Sample.id_R Sample_request_exists))).
Defined.

(** ** Registering a team *)

(** C6, as the specification states it, fails: the owner identifier of the
    input is not a field of the returned record. *)
Lemma C6_owner_is_not_reflected :
  ~ reflects_every_field Sample.quiet Database.empty Sample.team_A.
Proof.
  intros H.
  specialize (H _ eq_refl "owner_uid" (VStr "uid-a") eq_refl).
  vm_compute in H. discriminate H.
Qed.

(** C6, amended: [create_team] stores the team under the next identifier
    and returns a record whose id is that identifier, which is not empty,
    and whose name, sport, location, address, players and availability
    equal those of the input.  The returned record has no field for the
    owner identifier or the device tokens. *)
Theorem C6_create_team_reflects_public_fields (c : Collaborators)
    (s : Store) (x : Team.t) :
  exists r,
    snd (create_team c s x) = Ok r /\
    team (fst (create_team c s x)) =
      (team s ++ [mkTeamDoc (next_oid s) x])%list /\
    TeamPublic.id r = Bson.str (next_oid s) /\
    TeamPublic.id r <> "" /\
    Forall
      (fun k => get k (TeamPublic.model_dump r) = get k (Team.model_dump x))
      ["name"; "sport"; "location"; "address"; "players"; "availability"] /\
    keys (TeamPublic.model_dump r) =
      ["id"; "name"; "sport"; "location"; "address"; "players";
       "availability"] /\
    get "owner_uid" (TeamPublic.model_dump r) = None /\
    get "device_tokens" (TeamPublic.model_dump r) = None.
Proof.
  unfold create_team, create_index.
  destruct (create_index_error c); simpl;
    (eexists; split; [reflexivity|]; split; [reflexivity|];
     split; [reflexivity|]; split; [apply str_nonempty|];
     split; [repeat constructor|]; repeat split).
Qed.

(** ** Searching nearby teams *)

Lemma int_raises (x : float) (e : exn) :
  Py.int x = Raise e -> escapes_as_fault e.
Proof.
  unfold Py.int. destruct (Prim2SF x); intros [= <-]; exact I.
Qed.

Lemma nearby_filter_ok (lng lat max_km : float)
    (sport timeslot : option string) (filt : TeamFilter) :
  nearby_filter lng lat max_km sport timeslot = Ok filt ->
  exists radius,
    Py.int (max_km * 1000)%float = Ok radius /\
    filt =
      mkTeamFilter (Some (mkNear (GeoPoint.mk "Point" [lng; lat]) radius))
        (match sport with
         | Some sp => if truthy sp then Some sp else None
         | None => None
         end)
        (match timeslot with
         | Some ts => if truthy ts then Some ts else None
         | None => None
         end).
Proof.
  unfold nearby_filter, bind.
  destruct (Py.int (max_km * 1000)%float) as [radius|e]; [|discriminate].
  intros [= <-]. exists radius. split; [reflexivity|].
  destruct sport as [sp|], timeslot as [ts|]; simpl;
    try destruct (truthy sp); try destruct (truthy ts); reflexivity.
Qed.

Lemma nearby_filter_raises (lng lat max_km : float)
    (sport timeslot : option string) (e : exn) :
  nearby_filter lng lat max_km sport timeslot = Raise e ->
  escapes_as_fault e.
Proof.
  unfold nearby_filter, bind.
  destruct (Py.int (max_km * 1000)%float) as [radius|e'] eqn:E;
    [discriminate|].
  intros [= <-]. exact (int_raises _ _ E).
Qed.

Lemma iter_teams_raises (c : Collaborators) (s : Store)
    (cur : Cursor TeamFilter) (e : exn) :
  iter_teams c s cur = Raise e -> escapes_as_fault e.
Proof.
  unfold iter_teams. destruct (location_near (spec cur)) as [n|];
    [|discriminate].
  unfold near_error.
  destruct (negb (valid_point (geometry n))); [intros [= <-]; exact I|].
  destruct (maxDistance n <? 0)%Z; [intros [= <-]; exact I|].
  destruct (negb (team_geo_index s)); [intros [= <-]; exact I|].
  discriminate.
Qed.

Lemma iter_teams_ok (c : Collaborators) (s : Store)
    (cur : Cursor TeamFilter) (docs : list TeamDoc) :
  iter_teams c s cur = Ok docs ->
  cursor_limit cur <> 0%nat ->
  (List.length docs <= cursor_limit cur)%nat /\
  Forall (fun d => In d (team s) /\ team_matches c (spec cur) d = true) docs.
Proof.
  unfold iter_teams. intros H Hn.
  assert (Hsub : forall l, (forall d, In d l ->
                  In d (filter (team_matches c (spec cur)) (team s))) ->
            Forall (fun d => In d (team s) /\
                             team_matches c (spec cur) d = true) l).
  { intros l Hl. apply Forall_forall. intros d Hd.
    apply Hl, filter_In in Hd. exact Hd. }
  destruct (location_near (spec cur)) as [n|].
  - destruct (near_error s n); [discriminate|]. injection H as <-.
    split; [now apply apply_limit_length|].
    apply Hsub. intros d Hd.
    apply apply_limit_incl, nearest_first_In in Hd. exact Hd.
  - injection H as <-. split; [now apply apply_limit_length|].
    apply Hsub. intros d Hd. now apply apply_limit_incl in Hd.
Qed.

(** No failure of [nearby_teams] is an [HTTPException]: the handler of the
    [try] block is never entered, because building the cursor cannot
    fail. *)
Lemma nearby_teams_raises (c : Collaborators) (s : Store)
    (lng lat max_km : float) (sport timeslot : option string) (e : exn) :
  nearby_teams c s lng lat max_km sport timeslot = Raise e ->
  escapes_as_fault e.
Proof.
  unfold nearby_teams.
  destruct (nearby_filter lng lat max_km sport timeslot) as [filt|e0] eqn:F.
  - cbn [bind try_except find limit spec].
    destruct (iter_teams c s (mkCursor filt 50)) as [docs|e1] eqn:I;
      simpl; [discriminate|].
    intros [= <-]. exact (iter_teams_raises _ _ _ _ I).
  - simpl. intros [= <-]. exact (nearby_filter_raises _ _ _ _ _ _ F).
Qed.



(** The radius on some inputs: 25 km, the default, is 25000 m and 2 km is
    2000 m; a fraction of a meter is dropped. *)
Lemma nearby_radius_examples :
  Py.int (25 * 1000)%float = Ok 25000%Z /\
  Py.int (2 * 1000)%float = Ok 2000%Z /\
  Py.int (0x1p-1 * 1000)%float = Ok 500%Z /\
  Py.int (0x1p-11 * 1000)%float = Ok 0%Z.
Proof. vm_compute. repeat split; reflexivity. Qed.

(** C8 on a store that holds a team but no geo index on [db.team], and on a
    query point out of bounds: the store rejects the query when the cursor
    is iterated, after the [try] block, and the failure leaves the handler
    as it is, a server fault.  No call of [nearby_teams] ends in status
    400. *)
Theorem C8_geo_query_failure_is_a_server_fault :
  (let r := nearby_teams Sample.quiet Sample.store_no_index 0 0 25
              None None in
   r = Raise (OperationFailure "unable to find index for $geoNear query") /\
   http_status r = 500%Z) /\
  (let r := nearby_teams Sample.quiet Sample.store_AB 200 0 25 None None in
   r = Raise (OperationFailure
                "invalid $near point: coordinates out of bounds") /\
   http_status r = 500%Z) /\
  forall c s lng lat max_km sport timeslot,
    http_status (nearby_teams c s lng lat max_km sport timeslot) <> 400%Z.
Proof.
  split; [vm_compute; split; reflexivity|].
  split; [vm_compute; split; reflexivity|].
  intros c s lng lat max_km sport timeslot.
  destruct (nearby_teams c s lng lat max_km sport timeslot) as [res|e] eqn:E.
  - simpl. discriminate.
  - apply nearby_teams_raises in E. destruct e; simpl in *;
      [contradiction| discriminate ..].
Qed.

(** ** Listing match requests *)

Lemma involves_spec (x : string) (d : RequestDoc) :
  involves (Some x) d = true <-> from_team_id d = x \/ to_team_id d = x.
Proof.
  simpl. rewrite orb_true_iff, !String.eqb_eq. tauto.
Qed.

Lemma firstn_In {D : Type} (n : nat) (l : list D) (x : D) :
  In x (firstn n l) -> In x l.
Proof.
  intros H. rewrite <- (firstn_skipn n l). apply in_or_app. now left.
Qed.

Lemma filter_all (l : list RequestDoc) : filter (involves None) l = l.
Proof.
  induction l as [|d l IH]; [reflexivity|].
  cbn [filter involves]. now rewrite IH.
Qed.

(** The query [list_match_requests] runs, against the words of the
    specification. *)
Lemma list_match_requests_eq (s : Store) (team_id : option string) :
  team_id <> Some "" ->
  list_match_requests s team_id =
    Ok (map _req_public
          (firstn 100 (filter (involves team_id) (matchrequest s)))).
Proof.
  intros Hne. unfold list_match_requests.
  cbn [bind find limit spec iter_requests cursor_limit apply_limit].
  destruct team_id as [x|]; simpl involves.
  - unfold truthy. destruct (String.eqb_spec x ""); [congruence|].
    cbn [negb]. do 3 f_equal. apply filter_ext. intros d. simpl.
    now rewrite orb_false_r.
  - reflexivity.
Qed.

(** An empty team identifier is no filter: every request is listed. *)
Lemma list_match_requests_empty_id (s : Store) :
  list_match_requests s (Some "") = list_match_requests s None.
Proof. reflexivity. Qed.

(** The identifier of a team is never the empty string. *)
Lemma team_id_is_not_empty (s : Store) (x : string) :
  team_exists s x -> x <> "".
Proof. intros (o & d & Ho & _) ->. discriminate Ho. Qed.

Lemma shows_req_public (docs : list RequestDoc) :
  Forall2 shows docs (map _req_public docs).
Proof.
  induction docs as [|d docs IH]; constructor; [|exact IH].
  repeat split.
Qed.

(** The stored requests [list_match_requests] answers with, for every
    input. *)
Lemma list_match_requests_docs (s : Store) (team_id : option string) :
  exists docs,
    list_match_requests s team_id = Ok (map _req_public docs) /\
    (forall x,
       team_id = Some x -> x <> "" ->
       docs = firstn 100 (filter (involves (Some x)) (matchrequest s))) /\
    (team_id = None \/ team_id = Some "" ->
     docs = firstn 100 (matchrequest s)).
Proof.
  destruct team_id as [x|]; [destruct (String.eqb_spec x "") as [->|Hne]|].
  - exists (firstn 100 (matchrequest s)).
    split; [|split; [intros x [= <-] H; congruence | reflexivity]].
    rewrite list_match_requests_empty_id.
    rewrite (list_match_requests_eq s None) by discriminate.
    now rewrite filter_all.
  - exists (firstn 100 (filter (involves (Some x)) (matchrequest s))).
    split; [|split].
    + apply list_match_requests_eq. congruence.
    + now intros y [= <-] _.
    + intros [H|H]; congruence.
  - exists (firstn 100 (matchrequest s)).
    split; [|split; [discriminate | reflexivity]].
    rewrite (list_match_requests_eq s None) by discriminate.
    now rewrite filter_all.
Qed.

(** C5: [list_match_requests] answers for every input, with at most 100
    records, and each record shows one stored request: its identifier as a
    string, its two teams, its status, proposed time and notes.  For a team
    identifier [x] (a non-empty string: the identifier of a team is never
    empty) the requests shown are the stored requests that have [x] as
    sender or receiver, in store order, cut after 100: every record
    returned names [x] as sender or receiver, and no such request is
    missing when at most 100 qualify.  Without a team identifier, and for
    the empty string, which the handler takes for none, the requests shown
    are all stored requests, cut after 100. *)
Theorem C5_list_match_requests (s : Store) (team_id : option string) :
  exists docs rs,
    list_match_requests s team_id = Ok rs /\
    Forall2 shows docs rs /\
    (List.length rs <= 100)%nat /\
    (forall x,
       team_id = Some x -> x <> "" ->
       docs = firstn 100 (filter (involves (Some x)) (matchrequest s)) /\
       Forall (fun d => In d (matchrequest s) /\
                        (from_team_id d = x \/ to_team_id d = x)) docs /\
       Forall (fun r => MatchRequestPublic.from_team_id r = x \/
                        MatchRequestPublic.to_team_id r = x) rs /\
       ((List.length (filter (involves (Some x)) (matchrequest s)) <= 100)%nat
        -> forall d,
             In d (matchrequest s) ->
             from_team_id d = x \/ to_team_id d = x -> In d docs)) /\
    (team_id = None \/ team_id = Some "" ->
     docs = firstn 100 (matchrequest s)).
Proof.
  destruct (list_match_requests_docs s team_id) as (docs & Hl & Hx & Hn).
  exists docs, (map _req_public docs).
  split; [exact Hl|]. split; [apply shows_req_public|].
  assert (Hcap : (List.length docs <= 100)%nat).
  { destruct team_id as [x|]; [destruct (String.eqb_spec x "") as [->|Hne]|].
    - rewrite Hn by now right. apply firstn_le_length.
    - rewrite (Hx x eq_refl Hne). apply firstn_le_length.
    - rewrite Hn by now left. apply firstn_le_length. }
  split; [now rewrite length_map|]. split; [|exact Hn].
  intros x Hs Hne. specialize (Hx x Hs Hne).
  assert (Hall : Forall (fun d => In d (matchrequest s) /\
                                  (from_team_id d = x \/ to_team_id d = x))
                        docs).
  { rewrite Hx. apply Forall_forall. intros d Hd. apply firstn_In in Hd.
    apply filter_In in Hd. destruct Hd as [Hin Hinv].
    split; [exact Hin | now apply involves_spec]. }
  split; [exact Hx|]. split; [exact Hall|]. split.
  - apply Forall_map. eapply Forall_impl; [|exact Hall].
    intros d [_ H]. exact H.
  - intros Hlen d Hin Hinv. rewrite Hx, firstn_all2 by exact Hlen.
    apply filter_In. split; [exact Hin | now apply involves_spec].
Qed.

Lemma C5_list_match_requests_witness :
  exists docs rs,
    list_match_requests Sample.store_ABRR (Some Sample.id_A) = Ok rs /\
    Forall2 shows docs rs /\
    docs = matchrequest Sample.store_ABRR /\
    Forall (fun r => MatchRequestPublic.from_team_id r = Sample.id_A \/
                     MatchRequestPublic.to_team_id r = Sample.id_A) rs.
Proof.
  destruct (C5_list_match_requests Sample.store_ABRR (Some Sample.id_A))
    as (docs & rs & Hl & Hshows & _ & Hx & _).
  assert (Hne : Sample.id_A <> "") by discriminate.
  destruct (Hx Sample.id_A eq_refl Hne) as (Hd & _ & Hrs & _).
  exists docs, rs. split; [exact Hl|]. split; [exact Hshows|].
  split; [exact Hd | exact Hrs].
Defined.

(** ** Outcomes of [send_match_request] *)

Lemma ensure_teams_exist_inv (s : Store) (a b : string) :
  ensure_teams_exist s [a; b] = Ok tt ->
  team_exists s a /\ team_exists s b.
Proof.
  simpl.
  destruct (ObjectId a) as [va|] eqn:Ha; [|discriminate].
  destruct (find_one_by_id team_oid (team s) va) as [da|] eqn:Fa;
    [|discriminate].
  destruct (ObjectId b) as [vb|] eqn:Hb; [|discriminate].
  destruct (find_one_by_id team_oid (team s) vb) as [db|] eqn:Fb;
    [|discriminate].
  intros _. split.
  - apply (team_exists_lookup s a va Ha). congruence.
  - apply (team_exists_lookup s b vb Hb). congruence.
Qed.

Lemma ensure_teams_exist_raises (s : Store) (a b : string) (e : exn) :
  ensure_teams_exist s [a; b] = Raise e ->
  e = InvalidId a \/
  e = HTTPException 404 ("Team " ++ a ++ " not found") \/
  e = InvalidId b \/
  e = HTTPException 404 ("Team " ++ b ++ " not found").
Proof.
  simpl.
  destruct (ObjectId a) as [va|]; [|intros [= <-]; tauto].
  destruct (find_one_by_id team_oid (team s) va); [|intros [= <-]; tauto].
  destruct (ObjectId b) as [vb|]; [|intros [= <-]; tauto].
  destruct (find_one_by_id team_oid (team s) vb); [discriminate|].
  intros [= <-]; tauto.
Qed.

Lemma send_ok_teams_exist (c : Collaborators) (s : Store)
    (req : MatchRequest.t) (r : MatchRequestPublic.t) :
  response (send_match_request c s req) = Ok r ->
  team_exists s (MatchRequest.from_team_id req) /\
  team_exists s (MatchRequest.to_team_id req).
Proof.
  unfold send_match_request.
  destruct (ensure_teams_exist s _) as [[]|e] eqn:E; [|discriminate].
  intros _. now apply ensure_teams_exist_inv.
Qed.

(** [send_match_request] answers with a record exactly when both team
    identifiers reference stored teams. *)
Theorem send_succeeds_iff_teams_exist (c : Collaborators) (s : Store)
    (req : MatchRequest.t) :
  (exists r, response (send_match_request c s req) = Ok r) <->
  team_exists s (MatchRequest.from_team_id req) /\
  team_exists s (MatchRequest.to_team_id req).
Proof.
  split.
  - intros [r Hr]. exact (send_ok_teams_exist c s req r Hr).
  - intros [Hf Ht].
    destruct (send_match_request_ok c s req Hf Ht) as (Hr & _).
    eauto.
Qed.

(** A call of [send_match_request] that fails leaves the store as it was
    and prints nothing; a call that succeeds adds one request, the one it
    returns, and touches nothing else. *)
Theorem send_is_all_or_nothing (c : Collaborators) (s : Store)
    (req : MatchRequest.t) :
  let out := send_match_request c s req in
  match response out with
  | Raise _ => store_after out = s /\ printed out = []
  | Ok r =>
      exists d,
        r = _req_public d /\
        store_after out =
          mkStore (team s) (team_geo_index s)
                  (matchrequest s ++ [d])%list (next_oid s + 1)%N
  end.
Proof.
  unfold send_match_request.
  destruct (ensure_teams_exist s _) as [[]|e].
  - unfold create_document_matchrequest. cbn [response store_after].
    exists (mkRequestDoc (next_oid s) (MatchRequest.from_team_id req)
              (MatchRequest.to_team_id req)
              (Status_str (MatchRequest.status req))
              (MatchRequest.proposed_time req) (MatchRequest.notes req)).
    split; reflexivity.
  - cbn [response store_after printed]. split; reflexivity.
Qed.

(** The only failures of [send_match_request] are the rejection of one of
    the two identifiers by [ObjectId] and not-found naming one of them: no
    failure of the notification step and no other status reaches the
    caller. *)
Theorem send_failures (c : Collaborators) (s : Store)
    (req : MatchRequest.t) (e : exn) :
  response (send_match_request c s req) = Raise e ->
  exists tid,
    (tid = MatchRequest.from_team_id req \/
     tid = MatchRequest.to_team_id req) /\
    (e = InvalidId tid /\ ObjectId tid = None \/
     e = HTTPException 404 ("Team " ++ tid ++ " not found") /\
     ~ team_exists s tid).
Proof.
  unfold send_match_request.
  destruct (ensure_teams_exist s _) as [[]|e'] eqn:E; [discriminate|].
  simpl. intros [= <-]. simpl in E.
  set (a := MatchRequest.from_team_id req) in *.
  set (b := MatchRequest.to_team_id req) in *.
  destruct (ObjectId a) as [va|] eqn:Ha.
  - destruct (find_one_by_id team_oid (team s) va) as [da|] eqn:Fa.
    + destruct (ObjectId b) as [vb|] eqn:Hb.
      * destruct (find_one_by_id team_oid (team s) vb) as [db|] eqn:Fb;
          [discriminate|].
        injection E as <-. exists b. split; [now right|]. right.
        split; [reflexivity|].
        rewrite (team_exists_lookup s b vb Hb). congruence.
      * injection E as <-. exists b. split; [now right|]. now left.
    + injection E as <-. exists a. split; [now left|]. right.
      split; [reflexivity|].
      rewrite (team_exists_lookup s a va Ha). congruence.
  - injection E as <-. exists a. split; [now left|]. now left.
Qed.

Lemma send_failures_witness :
  response (send_match_request Sample.failing Sample.store_AB
              (MatchRequest.parse Sample.id_A Sample.id_absent None None
                 None)) =
    Raise (HTTPException 404 "Team 00000000000000000000ffff not found") /\
  exists tid,
    (tid = Sample.id_A \/ tid = Sample.id_absent) /\
    (HTTPException 404 "Team 00000000000000000000ffff not found" =
       InvalidId tid /\ ObjectId tid = None \/
     HTTPException 404 "Team 00000000000000000000ffff not found" =
       HTTPException 404 ("Team " ++ tid ++ " not found") /\
     ~ team_exists Sample.store_AB tid).
Proof.
  split; [reflexivity|].
  exact (send_failures Sample.failing Sample.store_AB
           (MatchRequest.parse Sample.id_A Sample.id_absent None None None)
           _ eq_refl).
Defined.

(** ** What a transition changes *)

Lemma transitions_spec
    (f : Store -> string -> Store * result MatchRequestPublic.t)
    (literal : string) :
  In (f, literal) transitions -> f = transition literal.
Proof.
  unfold transitions. simpl.
  intros [H|[H|[H|[]]]]; injection H as <- <-; reflexivity.
Qed.

Lemma update_one_overwrite (docs : list RequestDoc) (o : oid)
    (st1 st2 : string) :
  update_one (fst (update_one docs o st1)) o st2 = update_one docs o st2.
Proof.
  induction docs as [|x docs IH]; simpl; [reflexivity|].
  destruct (N.eqb (_id x) o) eqn:E.
  - simpl. now rewrite E.
  - destruct (update_one docs o st1) as [rest n] eqn:U. simpl in *.
    rewrite E, IH. reflexivity.
Qed.

Lemma update_one_frame (docs : list RequestDoc) (o : oid) (st : string) :
  Forall2
    (fun d d' => same_but_status d d' /\ (_id d <> o -> d' = d))
    docs (fst (update_one docs o st)).
Proof.
  induction docs as [|x docs IH]; simpl; [constructor|].
  destruct (N.eqb_spec (_id x) o) as [E|E].
  - simpl. constructor.
    + split; [repeat split|contradiction].
    + clear. induction docs as [|y l IHl]; constructor; [|exact IHl].
      split; [repeat split|reflexivity].
  - destruct (update_one docs o st) as [rest n]. simpl in *.
    constructor; [|exact IH]. split; [repeat split|reflexivity].
Qed.

Lemma transition_unfound_is_identity (literal : string) (s : Store)
    (rid : string) (e : exn) :
  snd (transition literal s rid) = Raise e ->
  fst (transition literal s rid) = s /\
  (e = InvalidId rid /\ ObjectId rid = None \/
   e = HTTPException 404 "Request not found" /\ ~ request_exists s rid).
Proof.
  destruct (ObjectId rid) as [[o|bytes]|] eqn:Ho.
  - destruct (find_one _id (matchrequest s) o) as [d|] eqn:Hd.
    + rewrite (proj1 (transition_found literal s rid o d Ho Hd)).
      discriminate.
    + rewrite (transition_not_found literal s rid o Ho Hd). simpl.
      intros [= <-]. split; [reflexivity|]. right.
      split; [reflexivity|].
      intros (o' & d' & Ho' & Hd'). congruence.
  - rewrite (transition_fewer literal s rid bytes Ho). simpl.
    intros [= <-]. split; [reflexivity|]. right.
    split; [reflexivity|]. exact (fewer_is_no_request s rid bytes Ho).
  - rewrite (transition_invalid literal s rid Ho). simpl.
    intros [= <-]. split; [reflexivity|]. now left.
Qed.

Lemma Forall2_same_but_status (rid : string) (l : list RequestDoc) :
  Forall2
    (fun d d' =>
       same_but_status d d' /\
       (ObjectId rid <> Some (Twelve (_id d)) -> d' = d))
    l l.
Proof.
  induction l as [|d l IH]; constructor; [|exact IH].
  split; [repeat split|reflexivity].
Qed.

(** A transition leaves the teams, the index and the next identifier as
    they were, keeps every request in its place with its identifier, teams,
    proposed time and notes, and leaves every request with another
    identifier wholly unchanged. *)
Theorem transition_changes_one_status
    (f : Store -> string -> Store * result MatchRequestPublic.t)
    (literal : string) (s : Store) (rid : string) :
  In (f, literal) transitions ->
  let s' := fst (f s rid) in
  team s' = team s /\
  team_geo_index s' = team_geo_index s /\
  next_oid s' = next_oid s /\
  Forall2
    (fun d d' =>
       same_but_status d d' /\
       (ObjectId rid <> Some (Twelve (_id d)) -> d' = d))
    (matchrequest s) (matchrequest s').
Proof.
  intros Hf. rewrite (transitions_spec f literal Hf).
  pose proof (Forall2_same_but_status rid) as Hsame.
  destruct (ObjectId rid) as [[o|bytes]|] eqn:Ho.
  - pose proof (update_one_frame (matchrequest s) o literal) as Hfr.
    rewrite (transition_store_twelve literal s rid o Ho).
    simpl. repeat split.
    eapply Forall2_impl; [|exact Hfr].
    intros d d' [Hs Hk]. split; [exact Hs|].
    intros Hne. apply Hk. congruence.
  - rewrite (transition_fewer literal s rid bytes Ho). simpl.
    repeat split. apply Hsame.
  - rewrite (transition_invalid literal s rid Ho). simpl.
    repeat split. apply Hsame.
Qed.

Lemma transition_changes_one_status_witness :
  In (reject_request, "rejected") transitions /\
  team (fst (reject_request Sample.store_ABR Sample.id_R)) =
    team Sample.store_ABR /\
  next_oid (fst (reject_request Sample.store_ABR Sample.id_R)) =
    next_oid Sample.store_ABR.
Proof.
  assert (H : In (reject_request, "rejected") transitions)
    by (right; left; reflexivity).
  split; [exact H|].
  pose proof (transition_changes_one_status reject_request "rejected"
                Sample.store_ABR Sample.id_R H) as (Ht & _ & Hn & _).
  split; [exact Ht | exact Hn].
Defined.

(** A transition answers with a record exactly when the identifier
    references a stored request, and the record then has the literal as its
    status.  A transition that fails changes nothing, and fails either
    because [ObjectId] rejects the identifier or with not-found. *)
Theorem transition_outcome
    (f : Store -> string -> Store * result MatchRequestPublic.t)
    (literal : string) (s : Store) (rid : string) :
  In (f, literal) transitions ->
  ((exists r, snd (f s rid) = Ok r) <-> request_exists s rid) /\
  (forall r,
     snd (f s rid) = Ok r -> MatchRequestPublic.status r = literal) /\
  (forall e,
     snd (f s rid) = Raise e ->
     fst (f s rid) = s /\
     (e = InvalidId rid /\ ObjectId rid = None \/
      e = HTTPException 404 "Request not found" /\ ~ request_exists s rid)).
Proof.
  intros Hf. rewrite (transitions_spec f literal Hf).
  split; [split|split].
  - intros [r Hr].
    destruct (ObjectId rid) as [[o|bytes]|] eqn:Ho.
    + destruct (find_one _id (matchrequest s) o) as [d|] eqn:Hd.
      * now exists o, d.
      * rewrite (transition_not_found literal s rid o Ho Hd) in Hr.
        discriminate.
    + rewrite (transition_fewer literal s rid bytes Ho) in Hr. discriminate.
    + rewrite (transition_invalid literal s rid Ho) in Hr. discriminate.
  - intros (o & d & Ho & Hd).
    destruct (transition_found literal s rid o d Ho Hd) as [H _].
    rewrite H. simpl. eexists. reflexivity.
  - intros r Hr.
    destruct (ObjectId rid) as [[o|bytes]|] eqn:Ho.
    + destruct (find_one _id (matchrequest s) o) as [d|] eqn:Hd.
      * destruct (transition_found literal s rid o d Ho Hd) as [H _].
        rewrite H in Hr. simpl in Hr. injection Hr as <-. reflexivity.
      * rewrite (transition_not_found literal s rid o Ho Hd) in Hr.
        discriminate.
    + rewrite (transition_fewer literal s rid bytes Ho) in Hr. discriminate.
    + rewrite (transition_invalid literal s rid Ho) in Hr. discriminate.
  - intros e. apply transition_unfound_is_identity.
Qed.

Lemma transition_outcome_witness :
  In (confirm_request, "confirmed") transitions /\
  ((exists r, snd (confirm_request Sample.store_ABR Sample.id_R) = Ok r) <->
   request_exists Sample.store_ABR Sample.id_R).
Proof.
  assert (H : In (confirm_request, "confirmed") transitions)
    by (right; right; left; reflexivity).
  split; [exact H|].
  exact (proj1 (transition_outcome confirm_request "confirmed"
                  Sample.store_ABR Sample.id_R H)).
Defined.

(** The last transition wins: a transition after another one on the same
    identifier ends in the store and the response of that transition
    alone, whatever the identifier is. *)
Theorem last_transition_wins
    (f g : Store -> string -> Store * result MatchRequestPublic.t)
    (l1 l2 : string) (s : Store) (rid : string) :
  In (f, l1) transitions -> In (g, l2) transitions ->
  g (fst (f s rid)) rid = g s rid.
Proof.
  intros Hf Hg.
  rewrite (transitions_spec f l1 Hf), (transitions_spec g l2 Hg).
  destruct (ObjectId rid) as [[o|bytes]|] eqn:Ho.
  - pose proof (update_one_overwrite (matchrequest s) o l1 l2) as Hov.
    rewrite (transition_store_twelve l1 s rid o Ho).
    rewrite !(transition_twelve l2 _ rid o Ho). simpl.
    rewrite Hov. reflexivity.
  - now rewrite (transition_fewer l1 s rid bytes Ho).
  - now rewrite (transition_invalid l1 s rid Ho).
Qed.

Lemma last_transition_wins_witness :
  In (accept_request, "accepted") transitions /\
  In (reject_request, "rejected") transitions /\
  reject_request (fst (accept_request Sample.store_ABR Sample.id_R))
    Sample.id_R =
    reject_request Sample.store_ABR Sample.id_R /\
  exists r,
    snd (reject_request Sample.store_ABR Sample.id_R) = Ok r /\
    MatchRequestPublic.status r = "rejected".
Proof.
  assert (Ha : In (accept_request, "accepted") transitions)
    by (left; reflexivity).
  assert (Hr : In (reject_request, "rejected") transitions)
    by (right; left; reflexivity).
  split; [exact Ha|]. split; [exact Hr|].
  split.
  - exact (last_transition_wins accept_request reject_request "accepted"
             "rejected" Sample.store_ABR Sample.id_R Ha Hr).
  - eexists. split; vm_compute; reflexivity.
Defined.

(** ** Invariants of the store *)

Lemma find_one_app {D : Type} (key : D -> oid) (l l' : list D) (o : oid) :
  find_one key (l ++ l')%list o =
    match find_one key l o with
    | Some d => Some d
    | None => find_one key l' o
    end.
Proof.
  unfold find_one. induction l as [|x l IH]; simpl; [reflexivity|].
  destruct (N.eqb (key x) o); [reflexivity|exact IH].
Qed.

Lemma find_one_fresh {D : Type} (key : D -> oid) (l : list D) (o : oid) :
  Forall (fun i => (i < o)%N) (map key l) -> find_one key l o = None.
Proof.
  unfold find_one. induction l as [|x l IH]; simpl; [reflexivity|].
  intros H. inversion H as [|? ? Hx Hl]; subst.
  destruct (N.eqb_spec (key x) o); [lia|]. now apply IH.
Qed.

Lemma team_exists_grows (s s' : Store) (extra : list TeamDoc) (tid : string) :
  team s' = (team s ++ extra)%list -> team_exists s tid -> team_exists s' tid.
Proof.
  intros Ht (o & d & Ho & Hd). exists o, d. split; [exact Ho|].
  now rewrite Ht, find_one_app, Hd.
Qed.

Lemma update_one_ids (docs : list RequestDoc) (o : oid) (st : string) :
  map _id (fst (update_one docs o st)) = map _id docs.
Proof.
  induction docs as [|x docs IH]; simpl; [reflexivity|].
  destruct (N.eqb (_id x) o); [reflexivity|].
  destruct (update_one docs o st) as [rest n]. simpl in *. now rewrite IH.
Qed.

Lemma update_one_Forall (P : RequestDoc -> Prop) (docs : list RequestDoc)
    (o : oid) (st : string) :
  (forall d, P d -> P (set_status d st)) ->
  Forall P docs -> Forall P (fst (update_one docs o st)).
Proof.
  intros Hset. induction docs as [|x docs IH]; simpl; [constructor|].
  intros H. inversion H as [|? ? Hx Hl]; subst.
  destruct (N.eqb (_id x) o); simpl.
  - constructor; [now apply Hset|exact Hl].
  - destruct (update_one docs o st) as [rest n]. simpl in *.
    constructor; [exact Hx|now apply IH].
Qed.

(** The store after a transition, with the literal among the schema's. *)
Lemma transition_store (literal : string) (s : Store) (rid : string) :
  fst (transition literal s rid) = s \/
  exists o,
    fst (transition literal s rid) =
      mkStore (team s) (team_geo_index s)
              (fst (update_one (matchrequest s) o literal)) (next_oid s).
Proof.
  destruct (ObjectId rid) as [[o|bytes]|] eqn:Ho.
  - right. exists o. exact (transition_store_twelve literal s rid o Ho).
  - left. now rewrite (transition_fewer literal s rid bytes Ho).
  - left. now rewrite (transition_invalid literal s rid Ho).
Qed.

(** What one step does to the store. *)
Lemma step_cases (s s' : Store) :
  step s s' ->
  s' = s \/
  (exists x idx,
     s' = mkStore (team s ++ [mkTeamDoc (next_oid s) x])%list idx
                  (matchrequest s) (next_oid s + 1)%N /\
     (team_geo_index s = true -> idx = true)) \/
  (exists d st,
     s' = mkStore (team s) (team_geo_index s) (matchrequest s ++ [d])%list
                  (next_oid s + 1)%N /\
     _id d = next_oid s /\ status d = Status_str st /\
     team_exists s (from_team_id d) /\ team_exists s (to_team_id d)) \/
  (exists o st,
     s' = mkStore (team s) (team_geo_index s)
                  (fst (update_one (matchrequest s) o (Status_str st)))
                  (next_oid s)).
Proof.
  intros H. destruct H as [c s x|c s req|s rid|s rid|s rid].
  - right; left. unfold create_team, create_index, create_document_team.
    destruct (create_index_error c); simpl; do 2 eexists;
      (split; [reflexivity|tauto]).
  - unfold send_match_request.
    destruct (ensure_teams_exist s _) as [[]|e] eqn:E; [|now left].
    apply ensure_teams_exist_inv in E. destruct E as [Hf Ht].
    right; right; left. unfold create_document_matchrequest.
    cbn [store_after].
    exists (mkRequestDoc (next_oid s) (MatchRequest.from_team_id req)
              (MatchRequest.to_team_id req)
              (Status_str (MatchRequest.status req))
              (MatchRequest.proposed_time req) (MatchRequest.notes req)),
           (MatchRequest.status req).
    repeat split; assumption.
  - destruct (transition_store "accepted" s rid) as [H|[o H]]; [now left|].
    right; right; right. exists o, accepted. exact H.
  - destruct (transition_store "rejected" s rid) as [H|[o H]]; [now left|].
    right; right; right. exists o, rejected. exact H.
  - destruct (transition_store "confirmed" s rid) as [H|[o H]]; [now left|].
    right; right; right. exists o, confirmed. exact H.
Qed.

Lemma NoDup_snoc (l : list oid) (o : oid) :
  NoDup l -> Forall (fun i => (i < o)%N) l -> NoDup (l ++ [o])%list.
Proof.
  intros Hn Hl. induction l as [|x l IH]; simpl.
  - constructor; [tauto|constructor].
  - inversion Hn as [|? ? Hx Hn']; inversion Hl as [|? ? Hlt Hl']; subst.
    constructor; [|now apply IH].
    rewrite in_app_iff. simpl. intros [H|[H|[]]]; [contradiction|lia].
Qed.

Lemma Forall_lt_succ (l : list oid) (o : oid) :
  Forall (fun i => (i < o)%N) l -> Forall (fun i => (i < o + 1)%N) l.
Proof. apply Forall_impl. intros i. lia. Qed.

Lemma step_keeps_ids_fresh (s s' : Store) :
  step s s' -> ids_fresh s -> ids_fresh s'.
Proof.
  intros H (Nt & Nr & Ft & Fr).
  destruct (step_cases s s' H)
    as [->|[(x & idx & -> & _)|[(d & st & -> & Hid & _)|(o & st & ->)]]];
    unfold ids_fresh; simpl.
  - tauto.
  - rewrite map_app. simpl. repeat split.
    + now apply NoDup_snoc.
    + exact Nr.
    + apply Forall_app. split; [now apply Forall_lt_succ|].
      constructor; [lia|constructor].
    + now apply Forall_lt_succ.
  - rewrite map_app. simpl. rewrite Hid. repeat split.
    + exact Nt.
    + now apply NoDup_snoc.
    + now apply Forall_lt_succ.
    + apply Forall_app. split; [now apply Forall_lt_succ|].
      constructor; [lia|constructor].
  - rewrite update_one_ids. tauto.
Qed.

Lemma step_keeps_statuses_valid (s s' : Store) :
  step s s' -> statuses_valid s -> statuses_valid s'.
Proof.
  intros H Hv.
  destruct (step_cases s s' H)
    as [->|[(x & idx & -> & _)|[(d & st & -> & _ & Hst & _)|(o & st & ->)]]];
    unfold statuses_valid in *; simpl.
  - exact Hv.
  - exact Hv.
  - apply Forall_app. split; [exact Hv|].
    constructor; [now exists st|constructor].
  - apply update_one_Forall; [|exact Hv]. intros d _. now exists st.
Qed.

Lemma step_keeps_teams_referenced (s s' : Store) :
  step s s' -> teams_referenced s -> teams_referenced s'.
Proof.
  intros H Hv.
  destruct (step_cases s s' H)
    as [->|[(x & idx & -> & _)|[(d & st & -> & _ & _ & Hf & Ht)|
                                (o & st & ->)]]];
    unfold teams_referenced in *; simpl.
  - exact Hv.
  - eapply Forall_impl; [|exact Hv]. intros d [Hf Ht].
    split; eapply team_exists_grows; try eassumption; reflexivity.
  - apply Forall_app. split.
    + eapply Forall_impl; [|exact Hv]. intros d' [Hf' Ht'].
      split; [destruct Hf' as (o & t & ? & ?)
             | destruct Ht' as (o & t & ? & ?)];
        now exists o, t.
    + constructor; [|constructor].
      split; [destruct Hf as (o & t & ? & ?) | destruct Ht as (o & t & ? & ?)];
        now exists o, t.
  - apply update_one_Forall.
    + intros d H0. exact H0.
    + eapply Forall_impl; [|exact Hv]. intros d [Hf Ht].
      split; [destruct Hf as (o' & t & ? & ?)
             | destruct Ht as (o' & t & ? & ?)];
        now exists o', t.
Qed.

Lemma Sample_reachable : reachable Sample.store_ABR.
Proof.
  unfold Sample.store_ABR, Sample.store_AB.
  eapply reachable_step; [|apply step_send].
  eapply reachable_step; [|apply step_create_team].
  eapply reachable_step; [|apply step_create_team].
  apply reachable_empty.
Qed.

(** In every reachable store the identifiers of the teams are pairwise
    different, so are those of the match requests, and all are below the
    identifier the store hands out next. *)
Theorem reachable_ids_fresh (s : Store) : reachable s -> ids_fresh s.
Proof.
  induction 1 as [|s s' _ IH Hstep].
  - unfold ids_fresh. simpl. repeat split; constructor.
  - exact (step_keeps_ids_fresh s s' Hstep IH).
Qed.

Lemma reachable_ids_fresh_witness :
  reachable Sample.store_ABR /\ ids_fresh Sample.store_ABR.
Proof.
  split; [exact Sample_reachable|].
  exact (reachable_ids_fresh Sample.store_ABR Sample_reachable).
Defined.

(** In every reachable store the status of every match request is one of
    "pending", "accepted", "rejected" and "confirmed". *)
Theorem reachable_statuses_valid (s : Store) :
  reachable s -> statuses_valid s.
Proof.
  induction 1 as [|s s' _ IH Hstep].
  - constructor.
  - exact (step_keeps_statuses_valid s s' Hstep IH).
Qed.

Lemma reachable_statuses_valid_witness :
  reachable Sample.store_ABR /\ statuses_valid Sample.store_ABR.
Proof.
  split; [exact Sample_reachable|].
  exact (reachable_statuses_valid Sample.store_ABR Sample_reachable).
Defined.

(** In every reachable store the sender and the receiver of every match
    request are stored teams: teams are checked when a request is sent and
    no handler removes a team. *)
Theorem reachable_teams_referenced (s : Store) :
  reachable s -> teams_referenced s.
Proof.
  induction 1 as [|s s' _ IH Hstep].
  - constructor.
  - exact (step_keeps_teams_referenced s s' Hstep IH).
Qed.

Lemma reachable_teams_referenced_witness :
  reachable Sample.store_ABR /\ teams_referenced Sample.store_ABR.
Proof.
  split; [exact Sample_reachable|].
  exact (reachable_teams_referenced Sample.store_ABR Sample_reachable).
Defined.

(** No step removes or changes a team, drops a match request or clears the
    geo index: the teams and the requests only grow at their end. *)
Theorem step_only_adds (s s' : Store) :
  step s s' ->
  (exists extra, team s' = (team s ++ extra)%list) /\
  (exists extra,
     map _id (matchrequest s') = (map _id (matchrequest s) ++ extra)%list) /\
  (team_geo_index s = true -> team_geo_index s' = true) /\
  (next_oid s <= next_oid s')%N.
Proof.
  intros H.
  destruct (step_cases s s' H)
    as [->|[(x & idx & -> & Hi)|[(d & st & -> & _)|(o & st & ->)]]];
    simpl.
  - repeat split; try (exists []; now rewrite app_nil_r); tauto || lia.
  - repeat split; [eexists; reflexivity | exists []; now rewrite app_nil_r
                  | exact Hi | lia].
  - repeat split; [exists []; now rewrite app_nil_r
                  | rewrite map_app; eexists; reflexivity | tauto | lia].
  - rewrite update_one_ids.
    repeat split; try (exists []; now rewrite app_nil_r); tauto || lia.
Qed.

Lemma step_only_adds_witness :
  step Sample.store_AB Sample.store_ABR /\
  (exists extra, team Sample.store_ABR = (team Sample.store_AB ++ extra)%list).
Proof.
  assert (H : step Sample.store_AB Sample.store_ABR) by apply step_send.
  split; [exact H|].
  exact (proj1 (step_only_adds Sample.store_AB Sample.store_ABR H)).
Defined.

(** ** Identifiers as strings, and what follows a successful send *)

Lemma hex_digit_digit_hex (d : N) :
  (d < 16)%N -> hex_digit (digit_hex d) = Some d.
Proof.
  intros H.
  assert (E : (d = 0 \/ d = 1 \/ d = 2 \/ d = 3 \/ d = 4 \/ d = 5 \/ d = 6 \/
               d = 7 \/ d = 8 \/ d = 9 \/ d = 10 \/ d = 11 \/ d = 12 \/
               d = 13 \/ d = 14 \/ d = 15)%N) by lia.
  repeat (destruct E as [->|E]; [reflexivity|]). now subst.
Qed.

Lemma from_hex_to_hex (k : nat) (n a : N) (acc : string) :
  from_hex a (to_hex k n acc) =
  from_hex (a * 16 ^ N.of_nat k + n mod 16 ^ N.of_nat k)%N acc.
Proof.
  revert n a acc. induction k as [|k IH]; intros n a acc.
  - simpl. rewrite N.mod_1_r. f_equal. lia.
  - cbn [to_hex]. rewrite IH. cbn [from_hex].
    rewrite hex_digit_digit_hex by (apply N.mod_lt; lia).
    f_equal. rewrite Nat2N.inj_succ, N.pow_succ_r'.
    rewrite (N.Div0.mod_mul_r n 16 (16 ^ N.of_nat k)). lia.
Qed.

Lemma hex_digit_not_space (c : ascii) (d : N) :
  hex_digit c = Some d -> is_space c = false.
Proof.
  intros H.
  destruct c as [[] [] [] [] [] [] [] []];
    (reflexivity || discriminate H).
Qed.

Lemma all_hex_to_hex (k : nat) (n : N) (acc : string) :
  all_hex acc = true -> all_hex (to_hex k n acc) = true.
Proof.
  revert n acc. induction k as [|k IH]; intros n acc H; [exact H|].
  cbn [to_hex]. apply IH. cbn [all_hex].
  rewrite hex_digit_digit_hex by (apply N.mod_lt; lia). exact H.
Qed.

(** On an even number of hexadecimal digits [fromhex] reads one byte for
    every two digits, and the bytes spell the number the digits spell. *)
Lemma fromhex_all_hex (n : nat) (s : string) :
  String.length s = (2 * n)%nat -> all_hex s = true ->
  exists bytes,
    fromhex s = Some bytes /\
    List.length bytes = n /\
    forall acc,
      from_hex acc s =
        Some (fold_left (fun a b => (256 * a + b)%N) bytes acc).
Proof.
  revert s. induction n as [|n IH]; intros s Hlen Hall.
  - destruct s; [|discriminate Hlen]. exists []. now repeat split.
  - destruct s as [|c [|c' rest]]; try (simpl in Hlen; lia).
    cbn [all_hex] in Hall.
    destruct (hex_digit c) as [top|] eqn:Hc; [|discriminate Hall].
    destruct (hex_digit c') as [bot|] eqn:Hc'; [|discriminate Hall].
    destruct (IH rest) as (bytes & Hb & Hl & Hn);
      [simpl in Hlen; lia | exact Hall |].
    exists ((16 * top + bot)%N :: bytes). split; [|split].
    + cbn [fromhex]. rewrite (hex_digit_not_space c top Hc), Hc, Hc', Hb.
      reflexivity.
    + simpl. now rewrite Hl.
    + intros acc. cbn [from_hex fold_left]. rewrite Hc, Hc', Hn.
      do 2 f_equal. lia.
Qed.

(** The string of an identifier converts back to the identifier. *)
Lemma ObjectId_str (o : oid) :
  (o < 2 ^ 96)%N -> ObjectId (Bson.str o) = Some (Twelve o).
Proof.
  intros H. unfold ObjectId, Bson.str.
  rewrite to_hex_length. cbn [String.length Nat.add Nat.eqb].
  destruct (fromhex_all_hex 12 (to_hex 24 o ""))
    as (bytes & -> & Hl & Hn);
    [now rewrite to_hex_length | now apply all_hex_to_hex |].
  rewrite Hl. cbn [Nat.eqb]. do 2 f_equal. unfold number.
  assert (E : from_hex 0 (to_hex 24 o "") = Some o).
  { rewrite (from_hex_to_hex 24 o 0 ""). cbn [from_hex]. f_equal.
    change (16 ^ N.of_nat 24)%N with (2 ^ 96)%N.
    rewrite N.mod_small by exact H. now rewrite N.mul_0_l, N.add_0_l. }
  rewrite Hn in E. now injection E.
Qed.

Lemma ObjectId_nonempty (tid : string) (o : oid) :
  ObjectId tid = Some (Twelve o) -> tid <> "".
Proof. intros H ->. discriminate H. Qed.

(** The request a successful [send_match_request] returns can be decided
    under the identifier it was returned with: each transition then
    answers with that record, its status replaced by the literal. *)
Theorem sent_request_can_be_decided
    (f : Store -> string -> Store * result MatchRequestPublic.t)
    (literal : string) (c : Collaborators) (s : Store)
    (req : MatchRequest.t) (r : MatchRequestPublic.t) :
  In (f, literal) transitions ->
  ids_fresh s -> (next_oid s < 2 ^ 96)%N ->
  response (send_match_request c s req) = Ok r ->
  snd (f (store_after (send_match_request c s req))
         (MatchRequestPublic.id r)) =
    Ok (MatchRequestPublic.mk (MatchRequestPublic.id r)
          (MatchRequestPublic.from_team_id r)
          (MatchRequestPublic.to_team_id r) literal
          (MatchRequestPublic.proposed_time r)
          (MatchRequestPublic.notes r)).
Proof.
  intros Hf (_ & _ & _ & Hfresh) Hlt Hr.
  destruct (send_ok_teams_exist c s req r Hr) as [Hfrom Hto].
  destruct (send_match_request_ok c s req Hfrom Hto) as (Hr' & Hm & _).
  rewrite Hr in Hr'. injection Hr' as ->.
  rewrite (transitions_spec f literal Hf).
  cbn [_req_public MatchRequestPublic.id _id].
  set (d := mkRequestDoc (next_oid s) _ _ _ _ _) in *.
  assert (Hd : find_one _id
                 (matchrequest (store_after (send_match_request c s req)))
                 (next_oid s) = Some d).
  { rewrite Hm, find_one_app, (find_one_fresh _ _ _ Hfresh).
    unfold find_one. simpl. now rewrite N.eqb_refl. }
  destruct (transition_found literal _ _ _ d (ObjectId_str _ Hlt) Hd)
    as [H _].
  rewrite H. reflexivity.
Qed.

Lemma sent_request_can_be_decided_witness :
  In (accept_request, "accepted") transitions /\
  ids_fresh Sample.store_AB /\
  (next_oid Sample.store_AB < 2 ^ 96)%N /\
  exists r,
    response (send_match_request Sample.quiet Sample.store_AB
                (Sample.request None)) = Ok r /\
    MatchRequestPublic.status r = "pending" /\
    snd (accept_request Sample.store_ABR (MatchRequestPublic.id r)) =
      Ok (MatchRequestPublic.mk (MatchRequestPublic.id r)
            (MatchRequestPublic.from_team_id r)
            (MatchRequestPublic.to_team_id r) "accepted"
            (MatchRequestPublic.proposed_time r)
            (MatchRequestPublic.notes r)).
Proof.
  assert (Ha : In (accept_request, "accepted") transitions)
    by (left; reflexivity).
  assert (Hi : ids_fresh Sample.store_AB).
  { unfold Sample.store_AB.
    eapply step_keeps_ids_fresh; [apply step_create_team|].
    eapply step_keeps_ids_fresh; [apply step_create_team|].
    unfold ids_fresh. simpl. repeat split; constructor. }
  assert (Hn : (next_oid Sample.store_AB < 2 ^ 96)%N)
    by (vm_compute; reflexivity).
  split; [exact Ha|]. split; [exact Hi|]. split; [exact Hn|].
  eexists. split; [vm_compute; reflexivity|]. split; [reflexivity|].
  pose proof (sent_request_can_be_decided accept_request "accepted"
                Sample.quiet Sample.store_AB (Sample.request None) _ Ha Hi Hn
                eq_refl) as H.
  vm_compute in H. vm_compute. exact H.
Defined.

(** The request a successful [send_match_request] returns is listed
    afterwards, as the newest entry, for its sender, for its receiver and
    without a team, as long as fewer than 100 requests qualified before. *)
Theorem sent_request_is_listed (c : Collaborators) (s : Store)
    (req : MatchRequest.t) (r : MatchRequestPublic.t)
    (team_id : option string) :
  response (send_match_request c s req) = Ok r ->
  team_id = None \/ team_id = Some (MatchRequest.from_team_id req) \/
  team_id = Some (MatchRequest.to_team_id req) ->
  (List.length (filter (involves team_id) (matchrequest s)) < 100)%nat ->
  list_match_requests (store_after (send_match_request c s req)) team_id =
    Ok (map _req_public (filter (involves team_id) (matchrequest s)) ++ [r])%list.
Proof.
  intros Hr Hteam Hlen.
  destruct (send_ok_teams_exist c s req r Hr) as [Hfrom Hto].
  destruct (send_match_request_ok c s req Hfrom Hto) as (Hr' & Hm & _).
  rewrite Hr in Hr'. injection Hr' as ->.
  set (d := mkRequestDoc (next_oid s) _ _ _ _ _) in *.
  assert (Hne : team_id <> Some "").
  { destruct Hfrom as (o1 & _ & H1 & _), Hto as (o2 & _ & H2 & _).
    destruct Hteam as [-> | [-> | ->]]; [discriminate| |]; intros [= E].
    - exact (ObjectId_nonempty _ _ H1 E).
    - exact (ObjectId_nonempty _ _ H2 E). }
  assert (Hinv : involves team_id d = true).
  { destruct Hteam as [-> | [-> | ->]]; [reflexivity| |]; simpl.
    - now rewrite String.eqb_refl.
    - rewrite (String.eqb_refl (MatchRequest.to_team_id req)).
      apply orb_true_r. }
  rewrite (list_match_requests_eq _ team_id Hne), Hm, filter_app.
  cbn [filter]. rewrite Hinv.
  rewrite firstn_all2 by (rewrite length_app; simpl; lia).
  now rewrite map_app.
Qed.

Lemma sent_request_is_listed_witness :
  exists r,
    response (send_match_request Sample.failing Sample.store_AB
                (Sample.request None)) = Ok r /\
    list_match_requests
      (store_after (send_match_request Sample.failing Sample.store_AB
                      (Sample.request None)))
      (Some Sample.id_B) = Ok [r].
Proof.
  eexists. split; [vm_compute; reflexivity|].
  assert (Hlen : (List.length
                    (filter (involves (Some Sample.id_B))
                       (matchrequest Sample.store_AB)) < 100)%nat)
    by (vm_compute; lia).
  exact (sent_request_is_listed Sample.failing Sample.store_AB
           (Sample.request None) _ (Some Sample.id_B) eq_refl
           (or_intror (or_intror eq_refl)) Hlen).
Defined.

(** ** Listing teams *)

Lemma filter_true {D : Type} (l : list D) : filter (fun _ => true) l = l.
Proof. induction l as [|d l IH]; simpl; [reflexivity|now rewrite IH]. Qed.

Lemma list_teams_eq (c : Collaborators) (s : Store) (sport : option string) :
  list_teams c s sport = Ok (map team_public (filter (plays sport) (team s))).
Proof.
  unfold list_teams, get_documents_team, plays, truthy.
  destruct sport as [sp|]; [destruct (String.eqb sp "")|];
    cbn [negb bind find iter_teams spec location_near cursor_limit
         apply_limit];
    do 2 f_equal; apply filter_ext; intros d; unfold team_matches;
    cbn [sport_eq availability_timeslot_eq location_near];
    now rewrite ?andb_true_r.
Qed.

(** [list_teams] never fails and is not capped.  It returns, in store
    order, the public records of the stored teams whose sport is the given
    string; all teams without a sport or with the empty string; and no team
    for a string that is none of the nine sports of the schema. *)
Theorem list_teams_result (c : Collaborators) (s : Store)
    (sport : option string) :
  exists docs,
    list_teams c s sport = Ok (map team_public docs) /\
    docs = filter (plays sport) (team s) /\
    (sport = None \/ sport = Some "" -> docs = team s) /\
    (forall sp,
       sport = Some sp -> sp <> "" ->
       (forall d,
          In d docs <->
          In d (team s) /\ Sport_str (Team.sport (team_body d)) = sp) /\
       ((forall e : Sport, Sport_str e <> sp) -> docs = [])).
Proof.
  eexists. split; [apply list_teams_eq|]. split; [reflexivity|]. split.
  - intros [->| ->]; apply filter_true.
  - intros sp -> Hsp.
    assert (Hplays : forall d,
              plays (Some sp) d = true <->
              Sport_str (Team.sport (team_body d)) = sp).
    { intros d. cbn [plays]. destruct (String.eqb_spec sp "");
        [contradiction|]. apply String.eqb_eq. }
    split.
    + intros d. rewrite filter_In, Hplays. reflexivity.
    + intros Hnone.
      induction (team s) as [|d l IH]; [reflexivity|]. cbn [filter].
      destruct (plays (Some sp) d) eqn:E; [|exact IH].
      apply Hplays in E. exfalso. exact (Hnone _ E).
Qed.

(** The record [create_team] returns is what [list_teams] shows for the new
    team afterwards, as the newest entry of the whole list and of the list
    of its sport. *)
Theorem registered_team_is_listed (c c' : Collaborators) (s : Store)
    (x : Team.t) :
  exists r,
    snd (create_team c s x) = Ok r /\
    list_teams c' (fst (create_team c s x)) None =
      Ok (map team_public (team s) ++ [r])%list /\
    list_teams c' (fst (create_team c s x))
      (Some (Sport_str (Team.sport x))) =
      Ok (map team_public
            (filter (plays (Some (Sport_str (Team.sport x)))) (team s))
          ++ [r])%list.
Proof.
  assert (Hteam : team (fst (create_team c s x)) =
                  (team s ++ [mkTeamDoc (next_oid s) x])%list).
  { unfold create_team, create_index.
    destruct (create_index_error c); reflexivity. }
  exists (team_public (mkTeamDoc (next_oid s) x)). split; [|split].
  - unfold create_team, create_index.
    destruct (create_index_error c); reflexivity.
  - rewrite list_teams_eq, Hteam. cbn [plays].
    now rewrite !filter_true, map_app.
  - rewrite list_teams_eq, Hteam, filter_app, map_app. do 2 f_equal.
    cbn [filter plays team_body].
    assert (E : String.eqb (Sport_str (Team.sport x)) "" = false)
      by now destruct (Team.sport x).
    rewrite E, String.eqb_refl. reflexivity.
Qed.

(** Whether the index creation fails has no bearing on the response of
    [create_team] or on the documents it leaves in the store; only the
    index differs, which is there afterwards when it was there before or
    the creation succeeded. *)
Theorem create_team_ignores_index_failure (c c' : Collaborators) (s : Store)
    (x : Team.t) :
  snd (create_team c s x) = snd (create_team c' s x) /\
  team (fst (create_team c s x)) = team (fst (create_team c' s x)) /\
  matchrequest (fst (create_team c s x)) = matchrequest s /\
  next_oid (fst (create_team c s x)) = (next_oid s + 1)%N /\
  team_geo_index (fst (create_team c s x)) =
    match create_index_error c with
    | None => true
    | Some _ => team_geo_index s
    end.
Proof.
  unfold create_team, create_index.
  destruct (create_index_error c), (create_index_error c'); repeat split.
Qed.

(** Every team [nearby_teams] returns is also returned by [list_teams] for
    the same sport. *)
Theorem nearby_teams_are_listed (c : Collaborators) (s : Store)
    (lng lat max_km : float) (sport timeslot : option string)
    (res : list TeamPublic.t) :
  nearby_teams c s lng lat max_km sport timeslot = Ok res ->
  exists all, list_teams c s sport = Ok all /\ incl res all.
Proof.
  unfold nearby_teams.
  destruct (nearby_filter lng lat max_km sport timeslot) as [filt|e] eqn:F;
    [|discriminate].
  cbn [bind try_except find limit spec].
  destruct (iter_teams c s (mkCursor filt 50)) as [docs|e] eqn:I;
    [|discriminate].
  intros [= <-].
  destruct (nearby_filter_ok _ _ _ _ _ _ F) as (radius & _ & Hfilt).
  destruct (iter_teams_ok c s _ docs I) as [_ Hall]; [discriminate|].
  rewrite Forall_forall in Hall. cbn [spec] in Hall.
  eexists. split; [apply list_teams_eq|].
  intros t Ht. apply in_map_iff in Ht. destruct Ht as (d & <- & Hd).
  apply in_map, filter_In. destruct (Hall d Hd) as [Hin M].
  split; [exact Hin|]. unfold team_matches in M.
  apply andb_prop in M. destruct M as [M _].
  apply andb_prop in M. destruct M as [M _].
  rewrite Hfilt in M. cbn [sport_eq] in M.
  destruct sport as [sp|]; [|reflexivity]. cbn [plays].
  unfold truthy in M. destruct (String.eqb sp ""); [reflexivity|exact M].
Qed.

Lemma nearby_teams_are_listed_witness :
  exists res all,
    nearby_teams Sample.quiet Sample.store_AB 0 0 25 (Some "soccer") None =
      Ok res /\
    List.length res = 1%nat /\
    list_teams Sample.quiet Sample.store_AB (Some "soccer") = Ok all /\
    incl res all.
Proof.
  destruct (nearby_teams_are_listed Sample.quiet Sample.store_AB 0 0 25
              (Some "soccer") None _ eq_refl) as (all & Hall & Hincl).
  do 2 eexists. split; [reflexivity|]. split; [reflexivity|].
  split; [exact Hall | exact Hincl].
Defined.

(** ** The bearer token *)

Lemma lower_char_space (c : ascii) : lower_char c = " "%char -> c = " "%char.
Proof.
  destruct c as [[] [] [] [] [] [] [] []]; vm_compute; intros H;
    first [reflexivity | discriminate H].
Qed.

Lemma partition_app (scheme token : string) :
  partition " " scheme = None ->
  partition " " (scheme ++ " " ++ token) = Some (scheme, token).
Proof.
  change (" " ++ token) with (String " " token).
  induction scheme as [|c scheme IH]; cbn [partition append];
    [reflexivity|].
  destruct (Ascii.eqb c " "); [discriminate|].
  destruct (partition " " scheme) as [[]|]; [discriminate|].
  intros _. now rewrite IH.
Qed.

(** A string that lowers to "bearer" has no space in it. *)
Lemma bearer_has_no_space (scheme : string) :
  lower scheme = "bearer" -> partition " " scheme = None.
Proof.
  intros H.
  do 6 (destruct scheme as [|? scheme]; [discriminate H|]).
  destruct scheme; [|discriminate H].
  cbn [lower] in H. injection H as H1 H2 H3 H4 H5 H6.
  cbn [partition].
  repeat match goal with
         | E : lower_char ?c = _ |- context [Ascii.eqb ?c " "] =>
             destruct (Ascii.eqb_spec c " ");
             [subst c; vm_compute in E; discriminate E|]; clear E
         end.
  reflexivity.
Qed.

Lemma prefix_length (p s : string) :
  String.prefix p s = true -> (String.length p <= String.length s)%nat.
Proof.
  revert s. induction p as [|a p IH]; intros s; [simpl; lia|].
  destruct s as [|b s]; simpl; [discriminate|].
  destruct (ascii_dec a b); [|discriminate].
  intros H. apply IH in H. lia.
Qed.

Lemma lower_length (s : string) : String.length (lower s) = String.length s.
Proof. induction s as [|c s IH]; simpl; [reflexivity|now rewrite IH]. Qed.

Lemma lower_app (a b : string) : lower (a ++ b) = lower a ++ lower b.
Proof. induction a as [|c a IH]; simpl; [reflexivity|now rewrite IH]. Qed.

(** A header whose lower-case form starts with "bearer " is a scheme that
    lowers to "bearer", a space, and the token. *)
Lemma bearer_header (header : string) :
  startswith (lower header) "bearer " = true ->
  exists scheme token,
    header = scheme ++ " " ++ token /\ lower scheme = "bearer".
Proof.
  unfold startswith. intros H.
  pose proof (prefix_length _ _ H) as L. rewrite lower_length in L.
  do 7 (destruct header as [|? header]; [simpl in L; lia|]). clear L.
  cbn [lower String.prefix] in H.
  repeat match type of H with
         | (if ascii_dec ?x ?y then _ else _) = true =>
             destruct (ascii_dec x y) as [?E|]; [|discriminate H]
         end.
  match goal with
  | E : " "%char = lower_char ?c |- _ =>
      symmetry in E; apply lower_char_space in E; subst c
  end.
  match goal with
  | |- exists scheme token,
         String ?a (String ?b (String ?c (String ?d (String ?e
           (String ?f (String " " ?rest)))))) = _ /\ _ =>
      exists (String a (String b (String c (String d (String e
                (String f EmptyString)))))), rest
  end.
  split; [reflexivity|]. cbn [lower]. congruence.
Qed.

(** [verify_firebase_token] never raises: the subscript is always in range
    and every exception of the verifier is swallowed.  It returns a user id
    only for a header made of a scheme that lowers to "bearer", a space and
    a token the verifier accepts with that user id. *)
Theorem verify_firebase_token_is_safe
    (verify_id_token : string -> result (list (string * value)))
    (authorization : option string) :
  verify_firebase_token verify_id_token authorization <> IndexError /\
  forall uid,
    verify_firebase_token verify_id_token authorization =
      Returns (Some uid) ->
    exists scheme token decoded,
      authorization = Some (scheme ++ " " ++ token) /\
      lower scheme = "bearer" /\
      verify_id_token token = Ok decoded /\
      get "uid" decoded = Some uid.
Proof.
  unfold verify_firebase_token.
  destruct authorization as [header|]; [|split; [discriminate|discriminate]].
  destruct (negb (truthy header)); cbn [orb];
    [split; [discriminate|discriminate]|].
  destruct (startswith (lower header) "bearer ") eqn:B; cbn [negb];
    [|split; [discriminate|discriminate]].
  destruct (bearer_header header B) as (scheme & token & -> & Hs).
  unfold split1.
  rewrite (partition_app scheme token (bearer_has_no_space scheme Hs)).
  cbn [nth_error].
  destruct (verify_id_token token) as [decoded|e] eqn:V.
  - split; [discriminate|]. intros uid [= Hu].
    exists scheme, token, decoded. repeat split; assumption.
  - split; discriminate.
Qed.

(** Under any capitalisation of the scheme, the token handed to the
    verifier is the whole text after the first space, and the result is the
    "uid" claim of the decoded token, or [None] when the verifier raises. *)
Theorem verify_firebase_token_bearer
    (verify_id_token : string -> result (list (string * value)))
    (scheme token : string) :
  lower scheme = "bearer" ->
  verify_firebase_token verify_id_token (Some (scheme ++ " " ++ token)) =
    Returns
      match verify_id_token token with
      | Ok decoded => get "uid" decoded
      | Raise _ => None
      end.
Proof.
  intros Hs. unfold verify_firebase_token.
  assert (Hl : lower (scheme ++ " " ++ token) =
               "bearer " ++ lower token).
  { rewrite lower_app, Hs. reflexivity. }
  assert (Ht : truthy (scheme ++ " " ++ token) = true)
    by (destruct scheme; [cbn in Hs; discriminate Hs|reflexivity]).
  rewrite Ht, Hl. unfold startswith. cbn [negb orb].
  assert (Hp : String.prefix "bearer " ("bearer " ++ lower token) = true).
  { cbn [String.prefix append].
    repeat match goal with
           | |- (if ascii_dec ?x ?x then _ else _) = true =>
               destruct (ascii_dec x x); [|congruence]
           end.
    now destruct (lower token). }
  rewrite Hp. cbn [negb]. unfold split1.
  rewrite (partition_app scheme token (bearer_has_no_space scheme Hs)).
  cbn [nth_error].
  now destruct (verify_id_token token).
Qed.

Lemma verify_firebase_token_bearer_witness :
  lower "BeArEr" = "bearer" /\
  verify_firebase_token
    (fun token =>
       if String.eqb token "a b" then Ok [("uid", VStr "user-1")]
       else Raise (ValueError "bad token"))
    (Some "BeArEr a b") = Returns (Some (VStr "user-1")).
Proof.
  split; [reflexivity|].
  exact (verify_firebase_token_bearer
           (fun token =>
              if String.eqb token "a b" then Ok [("uid", VStr "user-1")]
              else Raise (ValueError "bad token"))
           "BeArEr" "a b" eq_refl).
Defined.

(** ** A radius that is no number *)

(** When [max_km] is NaN or an infinity, [nearby_teams] ends in the
    [ValueError] or [OverflowError] of [int], before any query is built:
    a server fault whatever the store and the other parameters are. *)
Theorem nearby_teams_non_finite_radius (c : Collaborators) (s : Store)
    (lng lat max_km : float) (sport timeslot : option string) :
  non_finite max_km = true ->
  exists e,
    nearby_teams c s lng lat max_km sport timeslot = Raise e /\
    (e = ValueError "cannot convert float NaN to integer" \/
     e = OverflowError "cannot convert float infinity to integer") /\
    http_status (nearby_teams c s lng lat max_km sport timeslot) = 500%Z.
Proof.
  unfold non_finite. intros H.
  assert (Hint : exists e,
            Py.int (max_km * 1000)%float = Raise e /\
            (e = ValueError "cannot convert float NaN to integer" \/
             e = OverflowError "cannot convert float infinity to integer")).
  { unfold Py.int. rewrite mul_spec.
    destruct (Prim2SF max_km) as [sg| sg| |sg m e]; try discriminate H.
    - vm_compute. eexists. split; [reflexivity|now right].
    - vm_compute. eexists. split; [reflexivity|now left]. }
  destruct Hint as (e & He & Hcase).
  exists e. unfold nearby_teams, nearby_filter. rewrite He. cbn [bind].
  split; [reflexivity|]. split; [exact Hcase|].
  destruct Hcase as [-> | ->]; reflexivity.
Qed.

Lemma nearby_teams_non_finite_radius_witness :
  non_finite nan = true /\ non_finite neg_infinity = true /\
  nearby_teams Sample.quiet Sample.store_AB 0 0 nan None None =
    Raise (ValueError "cannot convert float NaN to integer") /\
  exists e,
    nearby_teams Sample.quiet Sample.store_AB 0 0 neg_infinity None None =
      Raise e /\
    (e = ValueError "cannot convert float NaN to integer" \/
     e = OverflowError "cannot convert float infinity to integer") /\
    http_status
      (nearby_teams Sample.quiet Sample.store_AB 0 0 neg_infinity None None) =
      500%Z.
Proof.
  split; [reflexivity|]. split; [reflexivity|]. split; [reflexivity|].
  exact (nearby_teams_non_finite_radius Sample.quiet Sample.store_AB 0 0
           neg_infinity None None eq_refl).
Defined.

(** ** Transitions on different requests, and after a later send *)

Lemma update_one_hit (x : RequestDoc) (docs : list RequestDoc) (o : oid)
    (st : string) :
  _id x = o -> fst (update_one (x :: docs) o st) = set_status x st :: docs.
Proof. intros E. cbn [update_one]. apply N.eqb_eq in E. now rewrite E. Qed.

Lemma update_one_miss (x : RequestDoc) (docs : list RequestDoc) (o : oid)
    (st : string) :
  _id x <> o ->
  fst (update_one (x :: docs) o st) = x :: fst (update_one docs o st).
Proof.
  intros E. cbn [update_one]. apply N.eqb_neq in E. rewrite E.
  now destruct (update_one docs o st).
Qed.

Lemma update_one_commute (docs : list RequestDoc) (o1 o2 : oid)
    (a b : string) :
  o1 <> o2 ->
  fst (update_one (fst (update_one docs o1 a)) o2 b) =
  fst (update_one (fst (update_one docs o2 b)) o1 a).
Proof.
  intros Hne. induction docs as [|x docs IH]; [reflexivity|].
  destruct (N.eq_dec (_id x) o1) as [E1|E1];
    destruct (N.eq_dec (_id x) o2) as [E2|E2].
  - congruence.
  - rewrite (update_one_hit x docs o1 a E1),
            (update_one_miss x docs o2 b E2).
    rewrite update_one_miss by exact E2.
    now rewrite update_one_hit by exact E1.
  - rewrite (update_one_miss x docs o1 a E1),
            (update_one_hit x docs o2 b E2).
    rewrite update_one_hit by exact E2.
    now rewrite update_one_miss by exact E1.
  - rewrite (update_one_miss x docs o1 a E1),
            (update_one_miss x docs o2 b E2).
    rewrite update_one_miss by exact E2.
    rewrite update_one_miss by exact E1.
    now rewrite IH.
Qed.

Lemma update_one_count (docs : list RequestDoc) (o : oid) (st : string) :
  snd (update_one docs o st) =
    match find_one _id docs o with
    | Some _ => 1%nat
    | None => 0%nat
    end.
Proof.
  destruct (find_one _id docs o) as [d|] eqn:E.
  - exact (proj1 (update_one_present docs o st d E)).
  - now rewrite (update_one_absent docs o st E).
Qed.

(** The response of a transition in terms of the stored request. *)
Lemma transition_response (literal : string) (s : Store) (rid : string)
    (o : oid) :
  ObjectId rid = Some (Twelve o) ->
  snd (transition literal s rid) =
    match find_one _id (matchrequest s) o with
    | Some d => Ok (_req_public (set_status d literal))
    | None => Raise (HTTPException 404 "Request not found")
    end.
Proof.
  intros Ho. destruct (find_one _id (matchrequest s) o) as [d|] eqn:E.
  - now rewrite (proj1 (transition_found literal s rid o d Ho E)).
  - now rewrite (transition_not_found literal s rid o Ho E).
Qed.

Lemma transition_store_eq (literal : string) (s : Store) (rid : string)
    (o : oid) :
  ObjectId rid = Some (Twelve o) ->
  fst (transition literal s rid) =
    mkStore (team s) (team_geo_index s)
            (fst (update_one (matchrequest s) o literal)) (next_oid s).
Proof.
  exact (transition_store_twelve literal s rid o).
Qed.

(** Transitions on two different requests do not interfere: either order
    ends in the same store, and the response of each is what it is without
    the other. *)
Theorem transitions_on_different_requests_commute
    (f g : Store -> string -> Store * result MatchRequestPublic.t)
    (l1 l2 : string) (s : Store) (r1 r2 : string) (o1 o2 : oid) :
  In (f, l1) transitions -> In (g, l2) transitions ->
  ObjectId r1 = Some (Twelve o1) -> ObjectId r2 = Some (Twelve o2) ->
  o1 <> o2 ->
  fst (g (fst (f s r1)) r2) = fst (f (fst (g s r2)) r1) /\
  snd (g (fst (f s r1)) r2) = snd (g s r2) /\
  snd (f (fst (g s r2)) r1) = snd (f s r1).
Proof.
  intros Hf Hg H1 H2 Hne.
  rewrite (transitions_spec f l1 Hf), (transitions_spec g l2 Hg).
  rewrite !(transition_store_eq _ _ r1 o1 H1),
          !(transition_store_eq _ _ r2 o2 H2).
  rewrite !(transition_response _ _ r1 o1 H1),
          !(transition_response _ _ r2 o2 H2).
  cbn [team team_geo_index matchrequest next_oid].
  rewrite (update_one_commute _ o1 o2 l1 l2 Hne).
  rewrite (update_one_others _ o1 o2 l1) by congruence.
  rewrite (update_one_others _ o2 o1 l2) by congruence.
  repeat split.
Qed.

Lemma transitions_on_different_requests_commute_witness :
  In (accept_request, "accepted") transitions /\
  In (reject_request, "rejected") transitions /\
  ObjectId Sample.id_R = Some (Twelve 2%N) /\
  ObjectId Sample.id_R2 = Some (Twelve 3%N) /\
  2%N <> 3%N /\
  fst (reject_request (fst (accept_request Sample.store_ABRR Sample.id_R))
         Sample.id_R2) =
    fst (accept_request (fst (reject_request Sample.store_ABRR Sample.id_R2))
           Sample.id_R) /\
  map status
    (matchrequest
       (fst (reject_request
               (fst (accept_request Sample.store_ABRR Sample.id_R))
               Sample.id_R2))) = ["accepted"; "rejected"].
Proof.
  assert (Ha : In (accept_request, "accepted") transitions)
    by (left; reflexivity).
  assert (Hr : In (reject_request, "rejected") transitions)
    by (right; left; reflexivity).
  assert (Hne : 2%N <> 3%N) by discriminate.
  split; [exact Ha|]. split; [exact Hr|]. split; [reflexivity|].
  split; [reflexivity|]. split; [exact Hne|]. split.
  - exact (proj1 (transitions_on_different_requests_commute accept_request
                    reject_request "accepted" "rejected" Sample.store_ABRR
                    Sample.id_R Sample.id_R2 2%N 3%N Ha Hr eq_refl eq_refl
                    Hne)).
  - vm_compute. reflexivity.
Defined.

Lemma find_one_app_found {D : Type} (key : D -> oid) (l l' : list D)
    (o : oid) (d : D) :
  find_one key l o = Some d -> find_one key (l ++ l')%list o = Some d.
Proof. intros H. now rewrite find_one_app, H. Qed.

(** Sending a request does not disturb a stored one: a transition on a
    request that was stored before answers after the send as it would have
    answered before it. *)
Theorem send_keeps_stored_requests
    (f : Store -> string -> Store * result MatchRequestPublic.t)
    (literal : string) (c : Collaborators) (s : Store)
    (req : MatchRequest.t) (rid : string) :
  In (f, literal) transitions ->
  request_exists s rid ->
  snd (f (store_after (send_match_request c s req)) rid) = snd (f s rid).
Proof.
  intros Hf (o & d & Ho & Hd).
  rewrite (transitions_spec f literal Hf).
  rewrite !(transition_response _ _ rid o Ho), Hd.
  unfold send_match_request.
  destruct (ensure_teams_exist s _) as [[]|e].
  - unfold create_document_matchrequest.
    cbn [store_after matchrequest].
    now rewrite (find_one_app_found _ _ _ _ _ Hd).
  - cbn [store_after]. now rewrite Hd.
Qed.

Lemma send_keeps_stored_requests_witness :
  In (confirm_request, "confirmed") transitions /\
  request_exists Sample.store_ABR Sample.id_R /\
  snd (confirm_request
         (store_after (send_match_request Sample.failing Sample.store_ABR
                         (Sample.request (Some rejected))))
         Sample.id_R) =
    snd (confirm_request Sample.store_ABR Sample.id_R).
Proof.
  assert (H : In (confirm_request, "confirmed") transitions)
    by (right; right; left; reflexivity).
  split; [exact H|]. split; [exact Sample_request_exists|].
  exact (send_keeps_stored_requests confirm_request "confirmed"
           Sample.failing Sample.store_ABR (Sample.request (Some rejected))
           Sample.id_R H Sample_request_exists).
Defined.
